(** * The table properties dialog of the table plugin

    A shallow embedding of [src/plugins/table/main/ts/ui/TableDialog.ts]:
    [styleTDTH], [applyDataToElement], [onSubmitTableForm] and [open].

    The host editor's DOM layer, settings accessors and collaborators are
    opaque services for this module.  Calls that only write attributes or
    styles are recorded, in the order the code makes them, as a list of
    [Call]s; they are taken to leave tag names and the shape of the tree
    as they are.  Calls that change the shape of the table's tree
    (removing a node, inserting a child) are carried out on the modelled
    tree, because later steps read that shape.  The attributes of a
    modelled element are those the code reads on entry; what it writes is
    in the recorded calls. *)

From Stdlib Require Import Ascii.
From stdpp Require Import base option list sorting strings gmap.

Local Open Scope string_scope.
Local Open Scope list_scope.

(** ** JavaScript values and plain objects *)

(** A property that holds a string or is [undefined]. *)
Abbreviation jsval := (option string).

(** A plain object used as a map from own keys to values; an own key may
    hold [undefined] (the entry is then [Some None]). *)
Abbreviation JsObject := (gmap string jsval).

Module Js.

(** Truthiness of a string: every string but the empty one. *)
Definition truthy_string (s : string) : bool :=
  negb (bool_decide (s = "")).

(** Truthiness of a string-or-undefined value. *)
Definition truthy (v : jsval) : bool :=
  match v with
  | Some s => truthy_string s
  | None => false
  end.

(** [v || d] on a string-or-undefined value with a string default. *)
Definition or_else (v : jsval) (d : string) : string :=
  match v with
  | Some s => if truthy_string s then s else d
  | None => d
  end.

End Js.

(** ** DOM elements *)

(** An element as the dialog code reads it: its tag name (upper case, as
    the DOM reports it for HTML elements), its attributes, the markup last
    assigned to it through [innerHTML] (if any), and its [children]
    collection, which only holds elements and which the code allows to be
    absent. *)
#[local] Unset Elimination Schemes.
Inductive Element : Type :=
  mkElement (tagName : string)
            (attribs : gmap string string)
            (innerHTML : option string)
            (children : option (list Element)).
#[local] Set Elimination Schemes.

Definition tagName (e : Element) : string :=
  match e with mkElement t _ _ _ => t end.
Definition attribs (e : Element) : gmap string string :=
  match e with mkElement _ a _ _ => a end.
Definition innerHTML (e : Element) : option string :=
  match e with mkElement _ _ h _ => h end.
Definition children (e : Element) : option (list Element) :=
  match e with mkElement _ _ _ c => c end.

(** The child elements as a list; an absent collection has none. *)
Definition childList (e : Element) : list Element :=
  default [] (children e).

(** A reference to a node of a tree: the child indices leading to it from
    the root of that tree. *)
Abbreviation path := (list nat).

Fixpoint nodeAt (p : path) (e : Element) : option Element :=
  match p with
  | [] => Some e
  | i :: q =>
      match childList e !! i with
      | Some c => nodeAt q c
      | None => None
      end
  end.

(** ** Calls into the host *)

(** The first argument of [dom.setStyle]: a style name or a map from style
    names to values ([string | StyleMap]). *)
Inductive StyleArg : Type :=
| StyleName (name : string)
| StyleMap (styles : JsObject).

(** The calls the dialog makes into the host whose effect lies outside the
    model, with their arguments.  The element a DOM call works on is given
    by its path from the table element. *)
Inductive Call : Type :=
| ApiClose
| InsertTableInsert (cols rows : string)
| DomSetStyle (elm : path) (name : StyleArg) (value : option StyleArg)
| DomSetAttribs (elm : path) (attrs : JsObject)
| StylesUnApplyAlign
| StylesApplyAlign (name : jsval)
| EditorFocus
| EditorAddVisual.

(** ** [styleTDTH] *)

Definition isTDTH (e : Element) : bool :=
  bool_decide (tagName e = "TD") || bool_decide (tagName e = "TH").

(** [styleTDTH dom elm name value], for the element [elm] found at path [p]:
    the [dom.setStyle] calls it makes, in order. *)
Fixpoint styleTDTH (p : path) (elm : Element)
    (name : StyleArg) (value : option StyleArg) {struct elm} : list Call :=
  match elm with
  | mkElement tag _ _ ch =>
      if bool_decide (tag = "TD") || bool_decide (tag = "TH") then
        [DomSetStyle p name value]
      else
        match ch with
        | Some cs =>
            (fix loop (i : nat) (cs : list Element) {struct cs} : list Call :=
               match cs with
               | [] => []
               | c :: cs' =>
                   styleTDTH (p ++ [i]) c name value ++ loop (S i) cs'
               end) 0 cs
        | None => []
        end
  end.

(** The [for] loop of [styleTDTH] over a children collection, from index
    [i] on. *)
Fixpoint styleChildren (p : path) (i : nat) (cs : list Element)
    (name : StyleArg) (value : option StyleArg) : list Call :=
  match cs with
  | [] => []
  | c :: cs' =>
      styleTDTH (p ++ [i]) c name value ++ styleChildren p (S i) cs' name value
  end.

(** ** Helpers of the plugin and of the host *)

Module Util.

Definition isDigit (c : ascii) : bool :=
  let n := nat_of_ascii c in (48 <=? n)%nat && (n <=? 57)%nat.

Fixpoint allDigits (s : string) : bool :=
  match s with
  | EmptyString => true
  | String c s' => isDigit c && allDigits s'
  end.

(** A bare numeric size: one or more decimal digits and nothing else. *)
Definition isNumeric (s : string) : bool :=
  Js.truthy_string s && allDigits s.

(** Modelled from the spec: [Util.addSizeSuffix] of [../alien/Util] is
    not part of the sources at hand.  "Append a length unit to a bare
    numeric size"; "numeric values get a length-unit suffix;
    unitless/empty pass through unchanged".  The unit is the pixel unit
    that [removePxSuffix] strips; an absent size passes through. *)
Definition addSizeSuffix (size : jsval) : jsval :=
  match size with
  | Some s => if isNumeric s then Some (s +:+ "px") else Some s
  | None => None
  end.

(** [s] without a trailing "px". *)
Fixpoint stripPx (s : string) : string :=
  match s with
  | EmptyString => EmptyString
  | String c s' => if bool_decide (s = "px") then "" else String c (stripPx s')
  end.

(** Modelled from the spec: [Util.removePxSuffix] of [../alien/Util] is
    not part of the sources at hand.  "Strip a pixel unit suffix from a
    size string".  The spec is silent on an absent size; it passes
    through here. *)
Definition removePxSuffix (size : jsval) : jsval :=
  match size with
  | Some s => Some (stripPx s)
  | None => None
  end.

End Util.

Module Merger.

(** Modelled from the spec: [Merger.merge] belongs to an external
    library.  "Merged under means computed values win on key conflict":
    the result has the own keys of both objects, and a key of both takes
    the value of the later argument, whatever that value is. *)
Definition merge (old nu : JsObject) : JsObject := nu ∪ old.

End Merger.

Module Dom.

(** Modelled from the spec: [dom.getAttrib] ("get attributes") belongs to
    the host's DOM layer.  The value of the named attribute, the empty
    string when the element has none. *)
Definition getAttrib (elm : Element) (name : string) : string :=
  default "" (attribs elm !! name).

Definition upperAscii (c : ascii) : ascii :=
  let n := nat_of_ascii c in
  if (97 <=? n)%nat && (n <=? 122)%nat then ascii_of_nat (n - 32) else c.

Fixpoint upper (s : string) : string :=
  match s with
  | EmptyString => EmptyString
  | String c s' => String (upperAscii c) (upper s')
  end.

(** A tag selector matches an element by its tag name, whatever the
    case. *)
Definition matchesTag (selector : string) (elm : Element) : bool :=
  bool_decide (upper (tagName elm) = upper selector).

(** The nodes of the tree [elm] found at path [p], itself first, in
    document order, each with its path. *)
Fixpoint nodes (p : path) (elm : Element) {struct elm}
    : list (path * Element) :=
  (p, elm) ::
  match elm with
  | mkElement _ _ _ (Some cs) =>
      (fix loop (i : nat) (cs : list Element) {struct cs}
           : list (path * Element) :=
         match cs with
         | [] => []
         | c :: cs' => nodes (p ++ [i]) c ++ loop (S i) cs'
         end) 0 cs
  | mkElement _ _ _ None => []
  end.

(** The loop of [nodes] over a children collection, from index [i]
    on. *)
Fixpoint nodesChildren (p : path) (i : nat) (cs : list Element)
    : list (path * Element) :=
  match cs with
  | [] => []
  | c :: cs' => nodes (p ++ [i]) c ++ nodesChildren p (S i) cs'
  end.

(** The descendants of [elm] (itself excluded), in document order. *)
Definition descendants (elm : Element) : list (path * Element) :=
  tail (nodes [] elm).

(** Modelled from the spec: [dom.select] ("query descendant by tag")
    belongs to the host's DOM layer.  The descendants of [scope] with the
    given tag, in document order. *)
Definition select (selector : string) (scope : Element) : list path :=
  fst <$> filter (λ n, matchesTag selector n.2 = true) (descendants scope).

(** Modelled from the spec: [dom.remove] ("remove element") belongs to
    the host's DOM layer.  The tree [root] without the node at path [p]
    and all below it; the root itself has no parent to be taken from. *)
Fixpoint remove (p : path) (root : Element) : Element :=
  match p, root with
  | [], _ => root
  | _ :: _, mkElement t a h None => root
  | [i], mkElement t a h (Some cs) => mkElement t a h (Some (delete i cs))
  | i :: q, mkElement t a h (Some cs) =>
      mkElement t a h (Some (alter (remove q) i cs))
  end.

(** Modelled from the spec: [dom.create] ("create element") belongs to
    the host's DOM layer.  A fresh element with the given tag, no
    attributes and no children. *)
Definition create (name : string) : Element :=
  mkElement (upper name) ∅ None (Some []).

(** [parent.insertBefore(newChild, parent.firstChild)]: [newChild]
    becomes the first child. *)
Definition insertFirst (newChild parent : Element) : Element :=
  match parent with
  | mkElement t a h ch => mkElement t a h (Some (newChild :: default [] ch))
  end.

End Dom.

(** ** Form data, the editor and the dialog *)

(** The data of the dialog's form ([TableData]): every field is a string
    or absent. *)
Record TableData : Type := mkTableData {
  width : jsval;
  height : jsval;
  cellspacing : jsval;
  cellpadding : jsval;
  border : jsval;
  caption : jsval;
  align : jsval;
  class : jsval;
  cols : jsval;
  rows : jsval;
  borderstyle : jsval;
  bordercolor : jsval;
  backgroundcolor : jsval
}.

(** An entry of the configured class list, or an option of a select
    box. *)
Record ListItem : Type := mkListItem {
  text : string;
  value : string
}.

(** The components of a dialog body. *)
#[local] Unset Elimination Schemes.
Inductive BodyComponent : Type :=
| Input (name label : string)
| Checkbox (name label : string)
| Label (label : string) (items : list BodyComponent)
| SelectBox (name label : string) (items : list ListItem)
| Grid (columns : nat) (items : list BodyComponent).
#[local] Set Elimination Schemes.

Record Tab : Type := mkTab {
  tab_title : string;
  tab_items : list BodyComponent
}.

Inductive DialogBody : Type :=
| Panel (items : list BodyComponent)
| TabPanel (tabs : list Tab).

Record Button : Type := mkButton {
  button_type : string;
  button_name : string;
  button_text : string;
  button_primary : bool
}.

(** The editor as this module sees it: the settings read through the
    accessors of [../api/Settings], and the collaborators that are called
    with the editor or through it.  None of them is part of the sources at
    hand; each is a field, so that every host is covered. *)
Record Editor : Type := mkEditor {
  (* ../api/Settings *)
  getTableClassList : list ListItem;
  hasAdvancedTableTab : bool;
  hasAppearanceOptions : bool;
  shouldStyleWithCss : bool;
  getDefaultAttributes : JsObject;
  getDefaultStyles : JsObject;
  (* Env.ie *)
  ie : bool;
  (* editor.dom.serializeStyle *)
  serializeStyle : JsObject → string;
  (* editor.dom.getParent(editor.selection.getStart(), 'table') *)
  selectedTable : option Element;
  (* InsertTable.insert(editor, cols, rows) *)
  insertTable : string → string → Element;
  (* Helpers.extractDataFromSettings(editor, hasAdvTableTab) *)
  extractDataFromSettings : bool → TableData;
  (* Helpers.extractDataFromTableElement(editor, elm, hasAdvTableTab) *)
  extractDataFromTableElement : Element → bool → TableData;
  (* Helpers.buildListItems(getTableClassList(editor), ...) *)
  buildListItems : list ListItem → list ListItem;
  (* Helpers.getAdvancedTab() *)
  getAdvancedTab : Tab
}.

(** The dialog instance handed to the submit handler. *)
Record DialogApi : Type := mkDialogApi {
  getData : TableData
}.

(** What a submit leaves behind: the table element and the calls made into
    the host, in order. *)
Record Outcome : Type := mkOutcome {
  table : Element;
  calls : list Call
}.

(** The argument of [editor.windowManager.open]. *)
Record DialogSpec : Type := mkDialogSpec {
  title : string;
  size : string;
  body : DialogBody;
  onSubmit : DialogApi → Outcome;
  buttons : list Button;
  initialData : TableData
}.

(** ** [applyDataToElement] *)

(** The [styles] object of [applyDataToElement] as it stands when it is
    merged (line 80). *)
Definition tableStyles (editor : Editor) (tableElm : Element)
    (data : TableData) : JsObject :=
  let styles : JsObject := ∅ in
  let styles := <["height" := Util.addSizeSuffix (height data)]> styles in
  let styles :=
    if Js.truthy_string (Dom.getAttrib tableElm "width")
       && negb (shouldStyleWithCss editor)
    then styles
    else <["width" := Util.addSizeSuffix (width data)]> styles in
  let styles :=
    if shouldStyleWithCss editor then
      <["border-spacing" := Util.addSizeSuffix (cellspacing data)]>
        (<["border-width" := Util.addSizeSuffix (border data)]> styles)
    else styles in
  let styles :=
    if hasAdvancedTableTab editor then
      <["border-style" := borderstyle data]>
        (<["border-color" := bordercolor data]>
           (<["background-color" := backgroundcolor data]> styles))
    else styles in
  styles.

(** The style map that is serialized: the host's default styles merged
    under [styles]. *)
Definition appliedStyles (editor : Editor) (tableElm : Element)
    (data : TableData) : JsObject :=
  Merger.merge (getDefaultStyles editor) (tableStyles editor tableElm data).

(** The [attrs] object of [applyDataToElement] as it stands when it is
    merged (line 81). *)
Definition tableAttrs (editor : Editor) (tableElm : Element)
    (data : TableData) : JsObject :=
  let attrs : JsObject := ∅ in
  let attrs := <["class" := class data]> attrs in
  let attrs :=
    if Js.truthy_string (Dom.getAttrib tableElm "width")
       && negb (shouldStyleWithCss editor)
    then <["width" := Util.removePxSuffix (width data)]> attrs
    else attrs in
  let attrs :=
    if shouldStyleWithCss editor then attrs
    else
      <["cellspacing" := cellspacing data]>
        (<["cellpadding" := cellpadding data]>
           (<["border" := border data]> attrs)) in
  <["style" :=
      Some (serializeStyle editor (appliedStyles editor tableElm data))]> attrs.

(** The attribute map handed to [dom.setAttribs]: the host's default
    attributes merged under [attrs]. *)
Definition appliedAttrs (editor : Editor) (tableElm : Element)
    (data : TableData) : JsObject :=
  Merger.merge (getDefaultAttributes editor) (tableAttrs editor tableElm data).

(** The two style maps handed to [styleTDTH] for every child. *)
Definition cellBorderStyles (data : TableData) : JsObject :=
  <["padding" := Util.addSizeSuffix (cellpadding data)]>
    (<["border-width" := Util.addSizeSuffix (border data)]> ∅).

Definition cellColorStyles (data : TableData) : JsObject :=
  <["border-color" := bordercolor data]> ∅.

(** The loop over [tableElm.children] (lines 61 to 71), from index [i]
    on. *)
Fixpoint styleCells (editor : Editor) (data : TableData) (i : nat)
    (cs : list Element) : list Call :=
  match cs with
  | [] => []
  | c :: cs' =>
      styleTDTH [i] c (StyleMap (cellBorderStyles data)) None
      ++ (if hasAdvancedTableTab editor
          then styleTDTH [i] c (StyleMap (cellColorStyles data)) None
          else [])
      ++ styleCells editor data (S i) cs'
  end.

(** The [dom.setStyle] calls of [applyDataToElement] (lines 60 to 72). *)
Definition cellStyleCalls (editor : Editor) (tableElm : Element)
    (data : TableData) : list Call :=
  if shouldStyleWithCss editor then
    match children tableElm with
    | Some cs => styleCells editor data 0 cs
    | None => []
    end
  else [].

Definition applyDataToElement (editor : Editor) (tableElm : Element)
    (data : TableData) : list Call :=
  cellStyleCalls editor tableElm data
  ++ [DomSetAttribs [] (appliedAttrs editor tableElm data)].

(** ** [onSubmitTableForm] *)

(** [delete data.class]. *)
Definition deleteClass (data : TableData) : TableData :=
  mkTableData (width data) (height data) (cellspacing data)
    (cellpadding data) (border data) (caption data) (align data)
    None (cols data) (rows data) (borderstyle data) (bordercolor data)
    (backgroundcolor data).

(** The placeholder markup of a new caption. *)
Definition quote : string := String (ascii_of_nat 34) EmptyString.

Definition bogusBr : string :=
  "<br data-mce-bogus=" +:+ quote +:+ "1" +:+ quote +:+ "/>".

(** U+00A0, as its two UTF-8 bytes. *)
Definition nbsp : string :=
  String (ascii_of_nat 194) (String (ascii_of_nat 160) EmptyString).

Definition captionPlaceholder (editor : Editor) : string :=
  if negb (ie editor) then bogusBr else nbsp.

(** [captionElm.innerHTML = ...] for the two literals of the handler: the
    line break becomes a child element, the no-break space is text and adds
    no element. *)
Definition withPlaceholder (editor : Editor) (captionElm : Element)
    : Element :=
  mkElement (tagName captionElm) (attribs captionElm)
    (Some (captionPlaceholder editor))
    (Some (if negb (ie editor)
           then [mkElement "BR" {["data-mce-bogus" := "1"]} None (Some [])]
           else [])).

(** The caption toggle (lines 107 to 117) on the table's tree. *)
Definition toggleCaption (editor : Editor) (tableElm : Element)
    (data : TableData) : Element :=
  let captionElm := head (Dom.select "caption" tableElm) in
  let tableElm :=
    match captionElm with
    | Some c =>
        if negb (bool_decide (caption data = Some "checked"))
        then Dom.remove c tableElm
        else tableElm
    | None => tableElm
    end in
  match captionElm with
  | None =>
      if bool_decide (caption data = Some "checked")
      then Dom.insertFirst (withPlaceholder editor (Dom.create "caption"))
             tableElm
      else tableElm
  | Some _ => tableElm
  end.

(** The submit handler.  [editor.undoManager.transact] runs its callback
    once, in place. *)
Definition onSubmitTableForm (editor : Editor) (tableElm : option Element)
    (api : DialogApi) : Outcome :=
  let data := getData api in
  let closed := [ApiClose] in
  let data :=
    if bool_decide (class data = Some "") then deleteClass data else data in
  let '(tableElm, inserted) :=
    match tableElm with
    | None =>
        let cols := Js.or_else (cols data) "1" in
        let rows := Js.or_else (rows data) "1" in
        (insertTable editor cols rows, [InsertTableInsert cols rows])
    | Some elm => (elm, [])
    end in
  let applied := applyDataToElement editor tableElm data in
  let tableElm := toggleCaption editor tableElm data in
  let aligned :=
    if bool_decide (align data = Some "")
    then [StylesUnApplyAlign]
    else [StylesApplyAlign (align data)] in
  mkOutcome tableElm
    (closed ++ inserted ++ applied ++ aligned
     ++ [EditorFocus; EditorAddVisual]).

(** The table element a submit works on: the one the handler was bound
    to, or else the one the insertion collaborator returns. *)
Definition tableWorkedOn (editor : Editor) (tableElm : option Element)
    (data : TableData) : Element :=
  match tableElm with
  | Some elm => elm
  | None =>
      insertTable editor (Js.or_else (cols data) "1")
        (Js.or_else (rows data) "1")
  end.

(** ** [open] *)

Section Open.

(** [s.replace(/\s*mce\-item\-table\s*/g, '')], a service of the
    language: [s] without the marker class and the white space around
    it. *)
Variable removeItemTableClass : string → string.

Definition blankAdvanced (data : TableData) : TableData :=
  mkTableData (width data) (height data) (cellspacing data)
    (cellpadding data) (border data) (caption data) (align data)
    (class data) (cols data) (rows data) (Some "") (Some "") (Some "").

Definition setColsRows (c r : jsval) (data : TableData) : TableData :=
  mkTableData (width data) (height data) (cellspacing data)
    (cellpadding data) (border data) (caption data) (align data)
    (class data) c r (borderstyle data) (bordercolor data)
    (backgroundcolor data).

Definition setClass (c : jsval) (data : TableData) : TableData :=
  mkTableData (width data) (height data) (cellspacing data)
    (cellpadding data) (border data) (caption data) (align data)
    c (cols data) (rows data) (borderstyle data) (bordercolor data)
    (backgroundcolor data).

(** [open(editor, isNew)]: the description handed to
    [editor.windowManager.open].  An omitted [isNew] is [None]. *)
Definition open (editor : Editor) (isNew : option bool) : DialogSpec :=
  let data :=
    extractDataFromSettings editor (hasAdvancedTableTab editor) in
  let '(tableElm, data) :=
    if bool_decide (isNew = Some false) then
      let tableElm := selectedTable editor in
      match tableElm with
      | Some elm =>
          (tableElm,
           extractDataFromTableElement editor elm
             (hasAdvancedTableTab editor))
      | None =>
          (tableElm,
           if hasAdvancedTableTab editor then blankAdvanced data else data)
      end
    else
      let data := setColsRows (Some "1") (Some "1") data in
      (None,
       if hasAdvancedTableTab editor then blankAdvanced data else data) in
  let hasClasses :=
    bool_decide (0 < length (getTableClassList editor)) in
  let data :=
    if hasClasses then
      match class data with
      | Some c =>
          if Js.truthy_string c
          then setClass (Some (removeItemTableClass c)) data
          else data
      | None => data
      end
    else data in
  let rowColCountItems :=
    if negb (bool_decide (isNew = Some true)) then []
    else [Input "cols" "Cols"; Input "rows" "Rows"] in
  let alwaysItems := [Input "width" "Width"; Input "height" "Height"] in
  let appearanceItems :=
    if hasAppearanceOptions editor then
      [Input "cellspacing" "Cell spacing";
       Input "cellpadding" "Cell padding";
       Input "border" "Border width";
       Label "Caption" [Checkbox "caption" "Show caption"]]
    else [] in
  let alignmentItem :=
    [SelectBox "align" "Alignment"
       [mkListItem "None" ""; mkListItem "Left" "left";
        mkListItem "Center" "center"; mkListItem "Right" "right"]] in
  let classListItem :=
    if hasClasses then
      [SelectBox "class" "Class"
         (buildListItems editor (getTableClassList editor))]
    else [] in
  let generalTabItems :=
    rowColCountItems ++ alwaysItems ++ appearanceItems ++ alignmentItem
    ++ classListItem in
  let generalPanel := Grid 2 generalTabItems in
  let nonAdvancedForm := Panel [generalPanel] in
  let advancedForm :=
    TabPanel [mkTab "General" [generalPanel]; getAdvancedTab editor] in
  let dialogBody :=
    if hasAdvancedTableTab editor then advancedForm else nonAdvancedForm in
  mkDialogSpec "Table Properties" "normal" dialogBody
    (onSubmitTableForm editor tableElm)
    [mkButton "cancel" "cancel" "Cancel" false;
     mkButton "submit" "save" "Save" true]
    data.

End Open.

(** ** Cells and their first layer *)

(** The path [q] leads from [root] to a cell. *)
Definition cellAt (root : Element) (q : path) : Prop :=
  ∃ c, nodeAt q root = Some c ∧ isTDTH c = true.

(** The path [q] leads from [root] to a cell, and to no cell before its
    end: the cell has no cell above it in the tree of [root]. *)
Definition firstLayerCell (root : Element) (q : path) : Prop :=
  cellAt root q ∧ ∀ q', q' `prefix_of` q → q' ≠ q → ¬ cellAt root q'.

(** The same, as a test that descends along the path. *)
Fixpoint firstLayerCellb (q : path) (root : Element) : bool :=
  match q with
  | [] => isTDTH root
  | i :: q' =>
      negb (isTDTH root) &&
      match childList root !! i with
      | Some c => firstLayerCellb q' c
      | None => false
      end
  end.

(** Document order on paths: a node comes before the nodes below it, and
    all of a child's subtree before the subtrees of the children after
    it. *)
Fixpoint docBefore (p q : path) : Prop :=
  match p, q with
  | [], [] => False
  | [], _ :: _ => True
  | _ :: _, [] => False
  | i :: p', j :: q' => i < j ∨ (i = j ∧ docBefore p' q')
  end.

(** The editor with another selection. *)
Definition withSelection (sel : option Element) (editor : Editor) : Editor :=
  mkEditor (getTableClassList editor) (hasAdvancedTableTab editor)
    (hasAppearanceOptions editor) (shouldStyleWithCss editor)
    (getDefaultAttributes editor) (getDefaultStyles editor) (ie editor)
    (serializeStyle editor) sel (insertTable editor)
    (extractDataFromSettings editor) (extractDataFromTableElement editor)
    (buildListItems editor) (getAdvancedTab editor).

(** ** Sample inputs *)

Definition elem (tag : string) (cs : list Element) : Element :=
  mkElement tag ∅ None (Some cs).

(** A table whose only cell holds a table of its own. *)
Definition nestedTable : Element :=
  elem "TABLE" [elem "TBODY" [elem "TR" [elem "TD"
    [elem "TABLE" [elem "TBODY" [elem "TR" [elem "TD" []]]]]]]].

(** A plain serializer of style maps, for the sample editors. *)
Definition sampleSerialize (styles : JsObject) : string :=
  String.concat " "
    ((λ kv : string * jsval, kv.1 +:+ ": " +:+ default "" kv.2 +:+ ";")
       <$> map_to_list styles).

Definition plainTable : Element :=
  elem "TABLE" [elem "TBODY" [elem "TR" [elem "TD" []; elem "TH" []]]].

(** A table that carries a [width] attribute. *)
Definition widthTable : Element :=
  mkElement "TABLE" {["width" := "100"]} None
    (Some [elem "TBODY" [elem "TR" [elem "TD" []]]]).

(** A table without a caption whose cell holds a table with one. *)
Definition innerCaptionTable : Element :=
  elem "TABLE" [elem "TBODY" [elem "TR" [elem "TD"
    [elem "TABLE" [elem "CAPTION" []; elem "TBODY" [elem "TR" [elem "TD" []]]]]]]].

(** A table with a caption of its own. *)
Definition captionTable : Element :=
  elem "TABLE" [elem "CAPTION" []; elem "TBODY" [elem "TR" [elem "TD" []]]].

(** Form data as the settings give them, without row and column counts. *)
Definition settingsData : TableData :=
  mkTableData (Some "100%") (Some "") (Some "") (Some "") (Some "")
    None (Some "") (Some "") None None None None None.

(** Form data as a user may submit them. *)
Definition sampleData : TableData :=
  mkTableData (Some "200") (Some "50") (Some "2") (Some "3") (Some "1")
    (Some "checked") (Some "left") (Some "") None None
    (Some "solid") (Some "red") (Some "white").

(** An editor with the given flags and selection; its default attributes
    carry a border and its default styles a width. *)
Definition sampleEditor (adv css : bool) (sel : option Element) : Editor :=
  mkEditor [] adv true css
    {["border" := Some "1"]}
    (<["width" := Some "100%"]> {["border-collapse" := Some "collapse"]})
    false sampleSerialize sel
    (λ _ _, plainTable)
    (λ _, settingsData)
    (λ _ _, sampleData)
    (λ _, [])
    (mkTab "Advanced" []).

(** ** Readings of calls and of dialog bodies *)

(** The elements that the [dom.setStyle] calls of a list work on, in the
    order of the calls. *)
Definition setStyleTargets (cs : list Call) : list path :=
  omap (λ c, match c with DomSetStyle p _ _ => Some p | _ => None end) cs.

(** The form data with another cell padding. *)
Definition setCellpadding (v : jsval) (data : TableData) : TableData :=
  mkTableData (width data) (height data) (cellspacing data) v
    (border data) (caption data) (align data) (class data) (cols data)
    (rows data) (borderstyle data) (bordercolor data) (backgroundcolor data).

(** The names of the form fields of a body component, those of the
    components it groups included, in the order of the layout. *)
Fixpoint fieldNames (c : BodyComponent) : list string :=
  match c with
  | Input n _ => [n]
  | Checkbox n _ => [n]
  | SelectBox n _ _ => [n]
  | Label _ items =>
      (fix go (l : list BodyComponent) : list string :=
         match l with
         | [] => []
         | x :: l' => fieldNames x ++ go l'
         end) items
  | Grid _ items =>
      (fix go (l : list BodyComponent) : list string :=
         match l with
         | [] => []
         | x :: l' => fieldNames x ++ go l'
         end) items
  end.

(** The components of the general part of a dialog body: the items of the
    panel, or those of the first tab. *)
Definition generalPanel (b : DialogBody) : list BodyComponent :=
  match b with
  | Panel items => items
  | TabPanel (t :: _) => tab_items t
  | TabPanel [] => []
  end.


(** The field names of [TableData]. *)
Definition tableDataFields : list string :=
  ["width"; "height"; "cellspacing"; "cellpadding"; "border"; "caption";
   "align"; "class"; "cols"; "rows"; "borderstyle"; "bordercolor";
   "backgroundcolor"].

(** * Properties *)

(** ** Induction over elements *)

Lemma Element_ind (P : Element → Prop) :
  (∀ t a h, P (mkElement t a h None)) →
  (∀ t a h cs, Forall P cs → P (mkElement t a h (Some cs))) →
  ∀ e, P e.
Proof.
  intros Hnone Hsome.
  fix IH 1. intros [t a h [cs|]]; [|apply Hnone].
  apply Hsome. induction cs as [|c cs IHcs]; constructor; [apply IH|apply IHcs].
Qed.

(** ** [styleTDTH] *)

Lemma styleTDTH_unfold p elm name value :
  styleTDTH p elm name value =
  if isTDTH elm then [DomSetStyle p name value]
  else match children elm with
       | Some cs => styleChildren p 0 cs name value
       | None => []
       end.
Proof.
  destruct elm as [tag a h ch]. unfold isTDTH. simpl.
  destruct (bool_decide (tag = "TD") || bool_decide (tag = "TH")); [done|].
  destruct ch as [cs|]; [|done].
  generalize 0. induction cs as [|c cs IH]; intros i; simpl; [done|].
  by rewrite IH.
Qed.

Lemma styleChildren_concat p i cs name value :
  styleChildren p i cs name value =
  concat (imap (λ k c, styleTDTH (p ++ [i + k]) c name value) cs).
Proof.
  revert i. induction cs as [|c cs IH]; intros i; simpl; [done|].
  rewrite Nat.add_0_r, IH. f_equal. f_equal.
  apply imap_ext. intros k x _. simpl. by rewrite Nat.add_succ_r.
Qed.

Lemma elem_of_styleChildren p i cs name value x :
  x ∈ styleChildren p i cs name value ↔
  ∃ k c, cs !! k = Some c ∧ x ∈ styleTDTH (p ++ [i + k]) c name value.
Proof.
  revert i. induction cs as [|c cs IH]; intros i; simpl.
  - split; [by intros ?%elem_of_nil|]. by intros (k & c & ? & _).
  - rewrite elem_of_app, IH. split.
    + intros [Hx|(k & c' & Hk & Hx)].
      * exists 0, c. by rewrite Nat.add_0_r.
      * exists (S k), c'. split; [done|]. by rewrite Nat.add_succ_r.
    + intros ([|k] & c' & Hk & Hx); simpl in Hk.
      * left. injection Hk as <-. by rewrite Nat.add_0_r in Hx.
      * right. exists k, c'. split; [done|]. by rewrite Nat.add_succ_r in Hx.
Qed.

Lemma firstLayerCell_nil root :
  firstLayerCell root [] ↔ isTDTH root = true.
Proof.
  unfold firstLayerCell, cellAt. simpl. split.
  - by intros [(c & [= <-] & Hc) _].
  - intros Hc. split; [by exists root|].
    intros q' Hq'%prefix_nil_inv. congruence.
Qed.

Lemma cellAt_cons root k q c :
  childList root !! k = Some c → cellAt root (k :: q) ↔ cellAt c q.
Proof. intros Hk. unfold cellAt. simpl. by rewrite Hk. Qed.

Lemma firstLayerCell_cons root k q :
  firstLayerCell root (k :: q) ↔
  isTDTH root = false ∧
  ∃ c, childList root !! k = Some c ∧ firstLayerCell c q.
Proof.
  split.
  - intros [Hcell Hnone].
    assert (isTDTH root = false) as Hroot.
    { destruct (isTDTH root) eqn:E; [|done]. exfalso.
      apply (Hnone []); [apply prefix_nil|done|by exists root]. }
    split; [done|].
    destruct (childList root !! k) as [c|] eqn:Hk.
    + exists c. split; [done|]. split.
      * by apply (cellAt_cons root k q c).
      * intros q' Hpre Hne Hq'. apply (Hnone (k :: q')).
        -- by apply prefix_cons.
        -- congruence.
        -- by apply (cellAt_cons root k q' c).
    + destruct Hcell as (x & Hx & _). simpl in Hx. by rewrite Hk in Hx.
  - intros (Hroot & c & Hk & [Hcell Hnone]). split.
    + by apply (cellAt_cons root k q c).
    + intros [|k' q'] Hpre Hne.
      * intros (x & [= <-] & Hx). congruence.
      * pose proof (prefix_cons_inv_1 _ _ _ _ Hpre) as ->.
        apply prefix_cons_inv_2 in Hpre.
        rewrite (cellAt_cons root k q' c Hk).
        apply Hnone; [done|congruence].
Qed.

Lemma firstLayerCellb_spec root q :
  firstLayerCellb q root = true ↔ firstLayerCell root q.
Proof.
  revert root. induction q as [|k q IH]; intros root; simpl.
  - by rewrite firstLayerCell_nil.
  - rewrite firstLayerCell_cons, andb_true_iff, negb_true_iff.
    destruct (childList root !! k) as [c|]; split.
    + intros [? ?]. split; [done|]. exists c. by rewrite <- IH.
    + intros (? & c' & [= <-] & ?). by rewrite IH.
    + by intros [_ ?].
    + by intros (_ & c' & ? & _).
Qed.

(** The calls of [styleTDTH] are exactly one [dom.setStyle], with the
    given arguments, for every cell of the first layer. *)
Lemma elem_of_styleTDTH p root name value x :
  x ∈ styleTDTH p root name value ↔
  ∃ q, x = DomSetStyle (p ++ q) name value ∧ firstLayerCell root q.
Proof.
  revert p. induction root as [t a h|t a h cs IH] using Element_ind;
    intros p; rewrite styleTDTH_unfold;
    destruct (isTDTH _) eqn:Hcell; simpl.
  1, 3: rewrite list_elem_of_singleton; split;
    [ intros ->; exists []; by rewrite app_nil_r, firstLayerCell_nil
    | intros ([|k q] & -> & Hq);
      [ by rewrite app_nil_r
      | apply firstLayerCell_cons in Hq as [? _]; congruence ] ].
  - split; [by intros ?%elem_of_nil|].
    intros ([|k q] & _ & Hq).
    + apply firstLayerCell_nil in Hq. congruence.
    + by apply firstLayerCell_cons in Hq as (_ & c & ? & _).
  - rewrite elem_of_styleChildren. split.
    + intros (k & c & Hk & Hx). simpl in Hx.
      rewrite Forall_lookup in IH. apply (IH k c Hk) in Hx as (q & -> & Hq).
      exists (k :: q). split; [by rewrite <- app_assoc|].
      apply firstLayerCell_cons. split; [done|]. by exists c.
    + intros ([|k q] & -> & Hq).
      * apply firstLayerCell_nil in Hq. congruence.
      * apply firstLayerCell_cons in Hq as (_ & c & Hk & Hq).
        exists k, c. split; [done|]. simpl.
        rewrite Forall_lookup in IH. apply (IH k c Hk).
        exists q. split; [by rewrite <- app_assoc|done].
Qed.

Lemma styleChildren_NoDup p i cs name value :
  Forall (λ c, ∀ p', NoDup (styleTDTH p' c name value)) cs →
  NoDup (styleChildren p i cs name value).
Proof.
  intros Hcs. revert i. induction Hcs as [|c cs Hc _ IH]; intros i; simpl.
  - constructor.
  - apply NoDup_app. split; [apply Hc|]. split; [|apply IH].
    intros x (q & -> & _)%elem_of_styleTDTH
      (k & c' & _ & (q' & Heq & _)%elem_of_styleTDTH)%elem_of_styleChildren.
    injection Heq as Heq. rewrite <- !app_assoc in Heq.
    apply app_inv_head in Heq. simpl in Heq. injection Heq as Heq _. lia.
Qed.

Lemma styleTDTH_NoDup p root name value :
  NoDup (styleTDTH p root name value).
Proof.
  revert p. induction root as [t a h|t a h cs IH] using Element_ind;
    intros p; rewrite styleTDTH_unfold; destruct (isTDTH _); simpl;
    try apply NoDup_singleton; try apply NoDup_nil_2.
  by apply styleChildren_NoDup.
Qed.

(** C1.  [styleTDTH], at every node it is passed: a TD or TH receives the
    one [dom.setStyle] call with the given arguments and nothing below it
    is visited; any other node receives no call, and its children are
    visited one after the other in the order of its [children] collection,
    none of them when the collection is absent.  Hence the calls are
    exactly those on the cells that are reached from the root without
    passing another cell. *)
Theorem styleTDTH_stops_at_first_cells
    (p : path) (elm : Element) (name : StyleArg) (value : option StyleArg) :
  styleTDTH p elm name value =
    (if isTDTH elm then [DomSetStyle p name value]
     else match children elm with
          | Some cs =>
              concat (imap (λ i c, styleTDTH (p ++ [i]) c name value) cs)
          | None => []
          end)
  ∧ (DomSetStyle p name value ∈ styleTDTH p elm name value
     ↔ isTDTH elm = true)
  ∧ (∀ x, x ∈ styleTDTH p elm name value ↔
          ∃ q, x = DomSetStyle (p ++ q) name value ∧ firstLayerCell elm q).
Proof.
  split; [|split].
  - rewrite styleTDTH_unfold. destruct (isTDTH elm); [done|].
    destruct (children elm) as [cs|]; [|done].
    by rewrite styleChildren_concat.
  - rewrite elem_of_styleTDTH, <- firstLayerCell_nil. split.
    + intros (q & Heq & Hq). injection Heq as Heq.
      rewrite <- (app_nil_r p) in Heq at 1.
      apply app_inv_head in Heq. by subst q.
    + intros Hq. exists []. by rewrite app_nil_r.
  - apply elem_of_styleTDTH.
Qed.

(** C2, as the code has it.  Run on any element, [styleTDTH] calls
    [dom.setStyle], with the given arguments and once each, for every cell
    that has no cell above it, and for no other node: for no node that is
    not a cell, and for no cell nested inside another cell. *)
Theorem styleTDTH_styles_outermost_cells
    (root : Element) (name : StyleArg) (value : option StyleArg) :
  (∀ x, x ∈ styleTDTH [] root name value ↔
        ∃ q, x = DomSetStyle q name value ∧ cellAt root q
             ∧ ∀ q', q' `prefix_of` q → q' ≠ q → ¬ cellAt root q')
  ∧ NoDup (styleTDTH [] root name value).
Proof.
  split; [|apply styleTDTH_NoDup].
  intros x. rewrite elem_of_styleTDTH. unfold firstLayerCell. simpl.
  split; intros (q & ? & ? & ?); by exists q.
Qed.

(** C2, as stated, fails on a table nested in a cell: the inner cell is a
    cell of the tree, the root is not a cell, and the only call is the one
    on the outer cell. *)
Lemma styleTDTH_skips_nested_cell :
  isTDTH nestedTable = false
  ∧ cellAt nestedTable [0; 0; 0; 0; 0; 0; 0]
  ∧ styleTDTH [] nestedTable (StyleName "padding") None
    = [DomSetStyle [0; 0; 0] (StyleName "padding") None]
  ∧ DomSetStyle [0; 0; 0; 0; 0; 0; 0] (StyleName "padding") None
    ∉ styleTDTH [] nestedTable (StyleName "padding") None.
Proof.
  split; [done|]. split; [by eexists|].
  assert (styleTDTH [] nestedTable (StyleName "padding") None
          = [DomSetStyle [0; 0; 0] (StyleName "padding") None]) as Heq
    by reflexivity.
  split; [done|]. rewrite Heq. by intros [=]%list_elem_of_singleton.
Qed.

(** ** [applyDataToElement] *)

Lemma merge_lookup_nu (old nu : JsObject) k v :
  nu !! k = Some v → Merger.merge old nu !! k = Some v.
Proof. intros H. unfold Merger.merge. by apply lookup_union_Some_l. Qed.

Lemma merge_lookup_old (old nu : JsObject) k :
  nu !! k = None → Merger.merge old nu !! k = old !! k.
Proof. intros H. unfold Merger.merge. by apply lookup_union_r. Qed.

Lemma elem_of_styleCells editor data i cs x :
  x ∈ styleCells editor data i cs ↔
  ∃ k c, cs !! k = Some c ∧
    (x ∈ styleTDTH [i + k] c (StyleMap (cellBorderStyles data)) None
     ∨ (hasAdvancedTableTab editor = true
        ∧ x ∈ styleTDTH [i + k] c (StyleMap (cellColorStyles data)) None)).
Proof.
  revert i. induction cs as [|c cs IH]; intros i; simpl.
  - split; [by intros ?%elem_of_nil|]. by intros (k & c & ? & _).
  - rewrite !elem_of_app, IH. split.
    + intros [Hx|[Hx|(k & c' & Hk & Hx)]].
      * exists 0, c. rewrite Nat.add_0_r. by split; [|left].
      * exists 0, c. rewrite Nat.add_0_r. split; [done|right].
        destruct (hasAdvancedTableTab editor); [done|by apply elem_of_nil in Hx].
      * exists (S k), c'. split; [done|]. by rewrite Nat.add_succ_r.
    + intros ([|k] & c' & Hk & Hx); simpl in Hk.
      * injection Hk as <-. rewrite Nat.add_0_r in Hx.
        destruct Hx as [Hx|[Hadv Hx]]; [by left|right; left].
        by rewrite Hadv.
      * right; right. exists k, c'. split; [done|].
        by rewrite Nat.add_succ_r in Hx.
Qed.

Lemma elem_of_cellStyleCalls editor tableElm data x :
  x ∈ cellStyleCalls editor tableElm data ↔
  shouldStyleWithCss editor = true ∧
  ∃ i c q, childList tableElm !! i = Some c ∧ firstLayerCell c q ∧
    (x = DomSetStyle (i :: q) (StyleMap (cellBorderStyles data)) None
     ∨ (hasAdvancedTableTab editor = true
        ∧ x = DomSetStyle (i :: q) (StyleMap (cellColorStyles data)) None)).
Proof.
  unfold cellStyleCalls, childList.
  destruct (shouldStyleWithCss editor); simpl;
    [|split; [by intros ?%elem_of_nil|by intros [? _]]].
  destruct (children tableElm) as [cs|]; simpl.
  - rewrite elem_of_styleCells. split.
    + intros (k & c & Hk & Hx). split; [done|]. exists k, c. simpl in Hx.
      destruct Hx as [Hx|[Hadv Hx]];
        apply elem_of_styleTDTH in Hx as (q & -> & Hq); exists q; auto.
    + intros (_ & i & c & q & Hi & Hq & Hx). exists i, c. split; [done|].
      simpl. destruct Hx as [->|[Hadv ->]]; [left|right; split; [done|]];
        apply elem_of_styleTDTH; by exists q.
  - split; [by intros ?%elem_of_nil|]. by intros (_ & i & c & q & ? & _).
Qed.

Lemma cellStyleCalls_are_setStyle editor tableElm data x :
  x ∈ cellStyleCalls editor tableElm data → ∃ p n v, x = DomSetStyle p n v.
Proof.
  intros (_ & i & c & q & _ & _ & [->|[_ ->]])%elem_of_cellStyleCalls; eauto.
Qed.

(** The one [dom.setAttribs] call of [applyDataToElement] is on the table
    element, with the merged attribute map. *)
Lemma applyDataToElement_setAttribs editor tableElm data p m :
  DomSetAttribs p m ∈ applyDataToElement editor tableElm data ↔
  p = [] ∧ m = appliedAttrs editor tableElm data.
Proof.
  unfold applyDataToElement. rewrite elem_of_app, list_elem_of_singleton.
  split.
  - intros [(? & ? & ? & [=])%cellStyleCalls_are_setStyle|[= -> ->]]. done.
  - intros [-> ->]. by right.
Qed.

Lemma tableAttrs_style editor tableElm data :
  tableAttrs editor tableElm data !! "style"
  = Some (Some (serializeStyle editor (appliedStyles editor tableElm data))).
Proof. unfold tableAttrs. by rewrite lookup_insert_eq. Qed.

Lemma tableAttrs_class editor tableElm data :
  tableAttrs editor tableElm data !! "class" = Some (class data).
Proof.
  unfold tableAttrs.
  destruct (Js.truthy_string _ && negb _), (shouldStyleWithCss editor);
    by simplify_map_eq.
Qed.

Lemma tableAttrs_css editor tableElm data k :
  shouldStyleWithCss editor = true →
  k ∈ ["border"; "cellpadding"; "cellspacing"] →
  tableAttrs editor tableElm data !! k = None.
Proof.
  intros Hcss Hk. unfold tableAttrs. rewrite Hcss, andb_false_r.
  repeat (apply elem_of_cons in Hk as [->|Hk]; [by simplify_map_eq|]).
  by apply elem_of_nil in Hk.
Qed.

Lemma tableStyles_no_css editor tableElm data k :
  shouldStyleWithCss editor = false →
  k ∈ ["border-width"; "border-spacing"] →
  tableStyles editor tableElm data !! k = None.
Proof.
  intros Hcss Hk. unfold tableStyles. rewrite Hcss.
  destruct (Js.truthy_string _ && negb _), (hasAdvancedTableTab editor);
    repeat (apply elem_of_cons in Hk as [->|Hk]; [by simplify_map_eq|]);
    by apply elem_of_nil in Hk.
Qed.

Lemma tableAttrs_width editor tableElm data :
  tableAttrs editor tableElm data !! "width" =
  if Js.truthy_string (Dom.getAttrib tableElm "width")
     && negb (shouldStyleWithCss editor)
  then Some (Util.removePxSuffix (width data)) else None.
Proof.
  unfold tableAttrs.
  destruct (Js.truthy_string _ && negb _), (shouldStyleWithCss editor);
    by simplify_map_eq.
Qed.

Lemma tableStyles_width editor tableElm data :
  tableStyles editor tableElm data !! "width" =
  if Js.truthy_string (Dom.getAttrib tableElm "width")
     && negb (shouldStyleWithCss editor)
  then None else Some (Util.addSizeSuffix (width data)).
Proof.
  unfold tableStyles.
  destruct (Js.truthy_string _ && negb _), (shouldStyleWithCss editor),
    (hasAdvancedTableTab editor); by simplify_map_eq.
Qed.

Lemma stripPx_suffix s : Util.stripPx (s +:+ "px") = s.
Proof.
  induction s as [|c s IH]; [done|]. simpl.
  rewrite bool_decide_eq_false_2; [by rewrite IH|].
  intros [= _ Hs]. destruct s as [|c' [|c'' s]]; discriminate.
Qed.

(** C3, as the code has it.  The attribute map that [applyDataToElement]
    hands to [dom.setAttribs] is the host's default attributes merged
    under the computed ones, and its [style] entry is the serialized merge
    of the host's default styles under the computed ones.  When the host
    styles with CSS, the code computes no [border], [cellpadding] or
    [cellspacing] attribute, so that the applied map has for these keys
    what the host's default attributes have, and nothing when they have
    nothing; when it does not, the code computes no [border-width] or
    [border-spacing] style, so that the applied style map has for these
    keys what the host's default styles have. *)
Theorem applyDataToElement_css_keys
    (editor : Editor) (tableElm : Element) (data : TableData) :
  (∀ p m, DomSetAttribs p m ∈ applyDataToElement editor tableElm data ↔
          p = [] ∧ m = appliedAttrs editor tableElm data)
  ∧ appliedAttrs editor tableElm data !! "style"
    = Some (Some (serializeStyle editor (appliedStyles editor tableElm data)))
  ∧ (shouldStyleWithCss editor = true →
     ∀ k, k ∈ ["border"; "cellpadding"; "cellspacing"] →
       tableAttrs editor tableElm data !! k = None
       ∧ appliedAttrs editor tableElm data !! k
         = getDefaultAttributes editor !! k)
  ∧ (shouldStyleWithCss editor = false →
     ∀ k, k ∈ ["border-width"; "border-spacing"] →
       tableStyles editor tableElm data !! k = None
       ∧ appliedStyles editor tableElm data !! k
         = getDefaultStyles editor !! k).
Proof.
  split; [intros p m; apply applyDataToElement_setAttribs|].
  split; [apply merge_lookup_nu, tableAttrs_style|].
  split; intros Hcss k Hk.
  - pose proof (tableAttrs_css editor tableElm data k Hcss Hk) as Hnone.
    split; [done|]. by apply merge_lookup_old.
  - pose proof (tableStyles_no_css editor tableElm data k Hcss Hk) as Hnone.
    split; [done|]. by apply merge_lookup_old.
Qed.

Lemma applyDataToElement_css_keys_witness :
  appliedAttrs (sampleEditor false true None) plainTable sampleData
    !! "cellpadding" = None
  ∧ appliedStyles (sampleEditor false false None) plainTable sampleData
    !! "border-spacing" = None.
Proof.
  split.
  - destruct (applyDataToElement_css_keys
                (sampleEditor false true None) plainTable sampleData)
      as (_ & _ & Hcss & _).
    destruct (Hcss eq_refl "cellpadding") as [_ ->]; [|reflexivity].
    apply list_elem_of_In. simpl. tauto.
  - destruct (applyDataToElement_css_keys
                (sampleEditor false false None) plainTable sampleData)
      as (_ & _ & _ & Hattr).
    destruct (Hattr eq_refl "border-spacing") as [_ ->]; [|reflexivity].
    apply list_elem_of_In. simpl. tauto.
Defined.

(** C3, as stated, fails for a host whose default attributes carry a
    border: with CSS styling on, the attribute map handed to
    [dom.setAttribs] has the default [border]. *)
Lemma applyDataToElement_applies_default_border :
  shouldStyleWithCss (sampleEditor false true None) = true
  ∧ DomSetAttribs []
      (appliedAttrs (sampleEditor false true None) plainTable sampleData)
    ∈ applyDataToElement (sampleEditor false true None) plainTable sampleData
  ∧ appliedAttrs (sampleEditor false true None) plainTable sampleData
      !! "border" = Some (Some "1").
Proof.
  split; [done|]. split; [by apply applyDataToElement_setAttribs|].
  by vm_compute.
Qed.

(** C4, as the code has it.  When the element carries a non-empty [width]
    attribute and the host does not style with CSS, the applied attribute
    map has the form's width without its pixel suffix as [width], and the
    code computes no [width] style, so that the applied style map has as
    [width] what the host's default styles have, and nothing when they
    have nothing.  Otherwise the applied style map has the form's width,
    with the length unit put behind a bare number, as [width], and the
    code computes no [width] attribute.  For an element with a [width]
    attribute, no CSS styling and a form width of 200, the [width]
    attribute becomes 200 and no [width] style is computed. *)
Theorem applyDataToElement_width
    (editor : Editor) (tableElm : Element) (data : TableData) :
  (Dom.getAttrib tableElm "width" ≠ "" → shouldStyleWithCss editor = false →
     appliedAttrs editor tableElm data !! "width"
       = Some (Util.removePxSuffix (width data))
     ∧ tableStyles editor tableElm data !! "width" = None
     ∧ appliedStyles editor tableElm data !! "width"
       = getDefaultStyles editor !! "width")
  ∧ (Dom.getAttrib tableElm "width" = "" ∨ shouldStyleWithCss editor = true →
     appliedStyles editor tableElm data !! "width"
       = Some (Util.addSizeSuffix (width data))
     ∧ tableAttrs editor tableElm data !! "width" = None)
  ∧ (∀ s, Util.removePxSuffix (Some (s +:+ "px")) = Some s)
  ∧ (∀ s, Util.isNumeric s = true →
          Util.addSizeSuffix (Some s) = Some (s +:+ "px"))
  ∧ (Dom.getAttrib tableElm "width" ≠ "" → shouldStyleWithCss editor = false →
     width data = Some "200" →
     appliedAttrs editor tableElm data !! "width" = Some (Some "200")
     ∧ tableStyles editor tableElm data !! "width" = None).
Proof.
  assert (Dom.getAttrib tableElm "width" ≠ "" →
          shouldStyleWithCss editor = false →
          Js.truthy_string (Dom.getAttrib tableElm "width")
          && negb (shouldStyleWithCss editor) = true) as Hyes.
  { intros Hw ->. unfold Js.truthy_string.
    by rewrite bool_decide_eq_false_2. }
  assert (Dom.getAttrib tableElm "width" = "" ∨
          shouldStyleWithCss editor = true →
          Js.truthy_string (Dom.getAttrib tableElm "width")
          && negb (shouldStyleWithCss editor) = false) as Hno.
  { intros [->| ->]; [done|apply andb_false_r]. }
  split; [|split; [|split; [|split]]].
  - intros Hw Hcss. split; [|split].
    + apply merge_lookup_nu. by rewrite tableAttrs_width, Hyes.
    + by rewrite tableStyles_width, Hyes.
    + apply merge_lookup_old. by rewrite tableStyles_width, Hyes.
  - intros Hor. split.
    + apply merge_lookup_nu. by rewrite tableStyles_width, Hno.
    + by rewrite tableAttrs_width, Hno.
  - intros s. simpl. by rewrite stripPx_suffix.
  - intros s Hs. simpl. by rewrite Hs.
  - intros Hw Hcss Hdata. split.
    + apply merge_lookup_nu. by rewrite tableAttrs_width, Hyes, Hdata.
    + by rewrite tableStyles_width, Hyes.
Qed.

Lemma applyDataToElement_width_witness :
  appliedAttrs (sampleEditor false false None) widthTable sampleData
    !! "width" = Some (Some "200")
  ∧ appliedStyles (sampleEditor false true None) widthTable sampleData
    !! "width" = Some (Some "200px").
Proof.
  split.
  - destruct (applyDataToElement_width
                (sampleEditor false false None) widthTable sampleData)
      as (_ & _ & _ & _ & Hscn).
    apply Hscn; [discriminate|reflexivity|reflexivity].
  - destruct (applyDataToElement_width
                (sampleEditor false true None) widthTable sampleData)
      as (_ & Helse & _).
    destruct (Helse (or_intror eq_refl)) as [-> _]. reflexivity.
Defined.

(** C4, as stated, fails for a host whose default styles carry a width:
    the [width] attribute becomes 200, and the style map that is
    serialized into the [style] attribute has the default width. *)
Lemma applyDataToElement_applies_default_width :
  Dom.getAttrib widthTable "width" = "100"
  ∧ shouldStyleWithCss (sampleEditor false false None) = false
  ∧ width sampleData = Some "200"
  ∧ appliedAttrs (sampleEditor false false None) widthTable sampleData
      !! "width" = Some (Some "200")
  ∧ appliedStyles (sampleEditor false false None) widthTable sampleData
      !! "width" = Some (Some "100%")
  ∧ appliedAttrs (sampleEditor false false None) widthTable sampleData
      !! "style"
    = Some (Some "width: 100%; border-collapse: collapse; height: 50px;").
Proof. repeat split; by vm_compute. Qed.

(** C8, as the code has it.  [applyDataToElement] calls [dom.setStyle]
    exactly when the host styles with CSS, whether or not the advanced tab
    is enabled: then every cell of the first layer below each child of the
    table receives the map of [border-width] and [padding], and it
    receives the map of [border-color] as well exactly when the advanced
    tab is enabled.  Without CSS styling there is no such call. *)
Theorem applyDataToElement_cell_styles
    (editor : Editor) (tableElm : Element) (data : TableData) :
  (∀ p name value,
     DomSetStyle p name value ∈ applyDataToElement editor tableElm data ↔
     shouldStyleWithCss editor = true ∧ value = None ∧
     ∃ i c q, p = i :: q ∧ childList tableElm !! i = Some c
       ∧ firstLayerCell c q
       ∧ (name = StyleMap (cellBorderStyles data)
          ∨ (hasAdvancedTableTab editor = true
             ∧ name = StyleMap (cellColorStyles data))))
  ∧ cellBorderStyles data !! "border-width"
    = Some (Util.addSizeSuffix (border data))
  ∧ cellBorderStyles data !! "padding"
    = Some (Util.addSizeSuffix (cellpadding data))
  ∧ cellBorderStyles data !! "border-color" = None
  ∧ cellColorStyles data !! "border-color" = Some (bordercolor data).
Proof.
  split; [|by unfold cellBorderStyles, cellColorStyles; simplify_map_eq].
  intros p name value. unfold applyDataToElement.
  rewrite elem_of_app, list_elem_of_singleton, elem_of_cellStyleCalls.
  split.
  - intros [(Hcss & i & c & q & Hi & Hq & Hx)|[=]].
    destruct Hx as [[= -> -> ->]|[Hadv [= -> -> ->]]];
      (split; [done|]); (split; [done|]); exists i, c, q;
      do 3 (split; [done|]); auto.
  - intros (Hcss & -> & i & c & q & -> & Hi & Hq & Hname). left.
    split; [done|]. exists i, c, q.
    destruct Hname as [->|[Hadv ->]]; auto.
Qed.

(** C8, as stated, fails with CSS styling on and the advanced tab off: the
    cells of the table still receive the [border-width] and [padding]
    map. *)
Lemma applyDataToElement_styles_cells_without_advanced_tab :
  shouldStyleWithCss (sampleEditor false true None) = true
  ∧ hasAdvancedTableTab (sampleEditor false true None) = false
  ∧ cellStyleCalls (sampleEditor false true None) plainTable sampleData
    = [DomSetStyle [0; 0; 0] (StyleMap (cellBorderStyles sampleData)) None;
       DomSetStyle [0; 0; 1] (StyleMap (cellBorderStyles sampleData)) None]
  ∧ DomSetStyle [0; 0; 0] (StyleMap (cellBorderStyles sampleData)) None
    ∈ applyDataToElement (sampleEditor false true None) plainTable sampleData.
Proof.
  split; [done|]. split; [done|]. split; [reflexivity|].
  unfold applyDataToElement. apply elem_of_app. left.
  change (cellStyleCalls (sampleEditor false true None) plainTable sampleData)
    with [DomSetStyle [0; 0; 0] (StyleMap (cellBorderStyles sampleData)) None;
          DomSetStyle [0; 0; 1] (StyleMap (cellBorderStyles sampleData)) None].
  apply list_elem_of_here.
Qed.

(** C10.  The attribute map that [applyDataToElement] computes always has
    the key [class], holding the form's class, which is [undefined] when
    the form has none; and so has the map it applies, whatever the host's
    default attributes hold for [class]. *)
Theorem applyDataToElement_class_shadows_default
    (editor : Editor) (tableElm : Element) (data : TableData) :
  tableAttrs editor tableElm data !! "class" = Some (class data)
  ∧ appliedAttrs editor tableElm data !! "class" = Some (class data)
  ∧ (∀ p m, DomSetAttribs p m ∈ applyDataToElement editor tableElm data ↔
            p = [] ∧ m = appliedAttrs editor tableElm data).
Proof.
  split; [apply tableAttrs_class|].
  split; [apply merge_lookup_nu, tableAttrs_class|].
  intros p m. apply applyDataToElement_setAttribs.
Qed.

(** ** The DOM queries *)

Lemma nodes_unfold p elm :
  Dom.nodes p elm =
  (p, elm) :: match children elm with
              | Some cs => Dom.nodesChildren p 0 cs
              | None => []
              end.
Proof.
  destruct elm as [t a h [cs|]]; simpl; [|done]. f_equal.
  generalize 0. induction cs as [|c cs IH]; intros i; simpl; [done|].
  by rewrite IH.
Qed.

Lemma elem_of_nodesChildren p i cs n :
  n ∈ Dom.nodesChildren p i cs ↔
  ∃ k c, cs !! k = Some c ∧ n ∈ Dom.nodes (p ++ [i + k]) c.
Proof.
  revert i. induction cs as [|c cs IH]; intros i; simpl.
  - split; [by intros ?%elem_of_nil|]. by intros (k & c & ? & _).
  - rewrite elem_of_app, IH. split.
    + intros [Hn|(k & c' & Hk & Hn)].
      * exists 0, c. by rewrite Nat.add_0_r.
      * exists (S k), c'. split; [done|]. by rewrite Nat.add_succ_r.
    + intros ([|k] & c' & Hk & Hn); simpl in Hk.
      * left. injection Hk as <-. by rewrite Nat.add_0_r in Hn.
      * right. exists k, c'. split; [done|]. by rewrite Nat.add_succ_r in Hn.
Qed.

(** [nodes] lists every node of the tree, under its path. *)
Lemma elem_of_nodes p elm q x :
  (q, x) ∈ Dom.nodes p elm ↔ ∃ r, q = p ++ r ∧ nodeAt r elm = Some x.
Proof.
  revert p. induction elm as [t a h|t a h cs IH] using Element_ind;
    intros p; rewrite nodes_unfold; simpl; rewrite elem_of_cons.
  - rewrite elem_of_nil. split.
    + intros [[= -> ->]|[]]. exists []. by rewrite app_nil_r.
    + intros ([|k r] & -> & Hr); simpl in Hr.
      * left. rewrite app_nil_r. congruence.
      * discriminate.
  - rewrite elem_of_nodesChildren. split.
    + intros [[= -> ->]|(k & c & Hk & Hn)].
      * exists []. by rewrite app_nil_r.
      * rewrite Forall_lookup in IH. apply (IH k c Hk) in Hn as (r & -> & Hr).
        exists (k :: r). split; [by rewrite <- app_assoc|].
        simpl. unfold childList. simpl. by rewrite Hk.
    + intros ([|k r] & -> & Hr); simpl in Hr.
      * left. rewrite app_nil_r. congruence.
      * right. unfold childList in Hr. simpl in Hr.
        destruct (cs !! k) as [c|] eqn:Hk; [|done].
        exists k, c. split; [done|]. rewrite Forall_lookup in IH.
        apply (IH k c Hk). exists r. by rewrite <- app_assoc.
Qed.

Lemma elem_of_descendants elm q x :
  (q, x) ∈ Dom.descendants elm ↔ q ≠ [] ∧ nodeAt q elm = Some x.
Proof.
  unfold Dom.descendants. rewrite nodes_unfold. simpl.
  destruct (children elm) as [cs|] eqn:Hch.
  - rewrite elem_of_nodesChildren. split.
    + intros (k & c & Hk & (r & -> & Hr)%elem_of_nodes).
      split; [done|]. simpl. unfold childList. rewrite Hch. simpl.
      by rewrite Hk.
    + intros [Hq Hx]. destruct q as [|k r]; [done|]. simpl in Hx.
      unfold childList in Hx. rewrite Hch in Hx. simpl in Hx.
      destruct (cs !! k) as [c|] eqn:Hk; [|done].
      exists k, c. split; [done|]. apply elem_of_nodes. by exists r.
  - split; [by intros ?%elem_of_nil|].
    intros [Hq Hx]. destruct q as [|k r]; [done|]. simpl in Hx.
    unfold childList in Hx. by rewrite Hch in Hx.
Qed.

(** [dom.select] finds exactly the descendants with the tag. *)
Lemma elem_of_select selector scope q :
  q ∈ Dom.select selector scope ↔
  q ≠ [] ∧ ∃ x, nodeAt q scope = Some x ∧ Dom.matchesTag selector x = true.
Proof.
  unfold Dom.select. rewrite list_elem_of_fmap. split.
  - intros ([q' x] & -> & [Hm Hn]%list_elem_of_filter). simpl in *.
    apply elem_of_descendants in Hn as [? ?]. eauto.
  - intros (Hq & x & Hx & Hm). exists (q, x). split; [done|].
    apply list_elem_of_filter. split; [done|].
    by apply elem_of_descendants.
Qed.

Lemma docBefore_app p r1 r2 :
  docBefore (p ++ r1) (p ++ r2) ↔ docBefore r1 r2.
Proof.
  induction p as [|i p IH]; simpl; [done|]. rewrite IH.
  split; [intros [?|[_ ?]]; [lia|done]|by right].
Qed.

Lemma docBefore_below p k r : docBefore p (p ++ k :: r).
Proof.
  rewrite <- (app_nil_r p) at 1. by apply docBefore_app.
Qed.

Lemma filter_StronglySorted {A} (R : relation A) (P : A → Prop)
    `{!∀ x, Decision (P x)} (l : list A) :
  StronglySorted R l → StronglySorted R (filter P l).
Proof.
  induction 1 as [|x l Hl IH Hx]; [constructor|].
  rewrite filter_cons. destruct (decide (P x)); [|done].
  constructor; [done|]. apply Forall_forall.
  intros y [_ Hy]%list_elem_of_filter.
  rewrite Forall_forall in Hx. by apply Hx.
Qed.

Lemma nodesChildren_sorted p i cs :
  Forall (λ c, ∀ p', StronglySorted (λ n m : path * Element,
                                      docBefore n.1 m.1)
                       (Dom.nodes p' c)) cs →
  StronglySorted (λ n m : path * Element, docBefore n.1 m.1)
    (Dom.nodesChildren p i cs).
Proof.
  intros Hcs. revert i. induction Hcs as [|c cs Hc _ IH]; intros i; simpl.
  - constructor.
  - apply StronglySorted_app. split; [|split; [apply Hc|apply IH]].
    intros [q1 x1] [q2 x2] (r1 & -> & _)%elem_of_nodes
      (k & c' & _ & (r2 & -> & _)%elem_of_nodes)%elem_of_nodesChildren.
    simpl. rewrite <- !app_assoc. apply docBefore_app. simpl. left. lia.
Qed.

(** [nodes] lists the nodes in document order. *)
Lemma nodes_sorted p elm :
  StronglySorted (λ n m : path * Element, docBefore n.1 m.1)
    (Dom.nodes p elm).
Proof.
  revert p. induction elm as [t a h|t a h cs IH] using Element_ind;
    intros p; rewrite nodes_unfold; simpl.
  - repeat constructor.
  - constructor; [by apply nodesChildren_sorted|].
    apply Forall_forall.
    intros [q x] (k & c & _ & (r & -> & _)%elem_of_nodes)%elem_of_nodesChildren.
    simpl. rewrite <- app_assoc. apply docBefore_below.
Qed.

(** [dom.select] lists its matches in document order. *)
Lemma select_sorted selector scope :
  StronglySorted docBefore (Dom.select selector scope).
Proof.
  unfold Dom.select.
  apply (StronglySorted_fmap _ (λ n m : path * Element, docBefore n.1 m.1));
    [done|].
  apply filter_StronglySorted. unfold Dom.descendants.
  pose proof (nodes_sorted [] scope) as Hs. rewrite nodes_unfold in *.
  by apply StronglySorted_cons in Hs as [_ Hs].
Qed.

(** The first match of [dom.select] comes before every other match. *)
Lemma select_head_first selector scope c q :
  head (Dom.select selector scope) = Some c →
  q ∈ Dom.select selector scope → q = c ∨ docBefore c q.
Proof.
  intros [l Hl]%head_Some Hq. pose proof (select_sorted selector scope) as Hs.
  rewrite Hl in Hs, Hq. apply StronglySorted_cons in Hs as [Hc _].
  apply elem_of_cons in Hq as [->|Hq]; [by left|right].
  rewrite Forall_forall in Hc. by apply Hc.
Qed.

Lemma remove_cons k p t a h cs :
  p ≠ [] →
  Dom.remove (k :: p) (mkElement t a h (Some cs))
  = mkElement t a h (Some (alter (Dom.remove p) k cs)).
Proof. by destruct p. Qed.

(** [dom.remove] takes the node out of its parent's children. *)
Lemma remove_at_parent q i root t a h cs :
  nodeAt q root = Some (mkElement t a h (Some cs)) →
  nodeAt q (Dom.remove (q ++ [i]) root)
  = Some (mkElement t a h (Some (delete i cs))).
Proof.
  revert root. induction q as [|k q IH]; intros root.
  - by intros [= ->].
  - destruct root as [t' a' h' [cs'|]]; [|done].
    change (nodeAt (k :: q) ?e) with
      (match childList e !! k with Some c => nodeAt q c | None => None end).
    unfold childList at 1. simpl default.
    destruct (cs' !! k) as [c|] eqn:Hk; [|done]. intros Hq.
    replace ((k :: q) ++ [i]) with (k :: (q ++ [i])) by done.
    rewrite remove_cons by (by destruct q).
    unfold childList. simpl default.
    rewrite list_lookup_alter_eq, Hk. by apply IH.
Qed.

(** ** [onSubmitTableForm] *)

Lemma onSubmitTableForm_calls editor tableElm api :
  calls (onSubmitTableForm editor tableElm api) =
  [ApiClose]
  ++ match tableElm with
     | None =>
         [InsertTableInsert (Js.or_else (cols (getData api)) "1")
            (Js.or_else (rows (getData api)) "1")]
     | Some _ => []
     end
  ++ applyDataToElement editor
       (tableWorkedOn editor tableElm (getData api))
       (if bool_decide (class (getData api) = Some "")
        then deleteClass (getData api) else getData api)
  ++ (if bool_decide (align (getData api) = Some "")
      then [StylesUnApplyAlign]
      else [StylesApplyAlign (align (getData api))])
  ++ [EditorFocus; EditorAddVisual].
Proof.
  unfold onSubmitTableForm, tableWorkedOn.
  by destruct (bool_decide (class _ = _)), tableElm.
Qed.

Lemma onSubmitTableForm_table editor tableElm api :
  table (onSubmitTableForm editor tableElm api) =
  toggleCaption editor (tableWorkedOn editor tableElm (getData api))
    (getData api).
Proof.
  unfold onSubmitTableForm, tableWorkedOn.
  by destruct (bool_decide (class _ = _)), tableElm.
Qed.

(** The one [dom.setAttribs] call of a submit. *)
Lemma onSubmitTableForm_setAttribs editor tableElm api p m :
  DomSetAttribs p m ∈ calls (onSubmitTableForm editor tableElm api) ↔
  p = [] ∧
  m = appliedAttrs editor (tableWorkedOn editor tableElm (getData api))
        (if bool_decide (class (getData api) = Some "")
         then deleteClass (getData api) else getData api).
Proof.
  rewrite onSubmitTableForm_calls, !elem_of_app, applyDataToElement_setAttribs.
  split; [|by auto].
  intros [Hin|[Hin|[?|[Hin|Hin]]]]; [| |done| |].
  - by apply list_elem_of_singleton in Hin.
  - destruct tableElm; [by apply elem_of_nil in Hin|].
    by apply list_elem_of_singleton in Hin.
  - destruct (bool_decide (align _ = _));
      by apply list_elem_of_singleton in Hin.
  - apply elem_of_cons in Hin as [|Hin]; [done|].
    by apply list_elem_of_singleton in Hin.
Qed.

(** C5.  A submit whose form data have the empty string as class goes
    on as the same submit without a class field, and the attribute map it
    applies to the table element has [undefined] under [class], never the
    empty string. *)
Theorem onSubmitTableForm_drops_empty_class
    (editor : Editor) (tableElm : option Element) (api : DialogApi) :
  class (getData api) = Some "" →
  onSubmitTableForm editor tableElm api
    = onSubmitTableForm editor tableElm
        (mkDialogApi (deleteClass (getData api)))
  ∧ (∃ m, DomSetAttribs [] m
          ∈ calls (onSubmitTableForm editor tableElm api))
  ∧ (∀ p m, DomSetAttribs p m
            ∈ calls (onSubmitTableForm editor tableElm api) →
            m !! "class" = Some None ∧ m !! "class" ≠ Some (Some "")).
Proof.
  intros Hclass. split; [|split].
  - unfold onSubmitTableForm. simpl. by rewrite Hclass.
  - eexists. by apply onSubmitTableForm_setAttribs.
  - intros p m [_ ->]%onSubmitTableForm_setAttribs.
    rewrite Hclass. simpl.
    assert (∀ t d, appliedAttrs editor t (deleteClass d) !! "class"
                   = Some None) as ->; [|done].
    intros t d. apply merge_lookup_nu. by rewrite tableAttrs_class.
Qed.

Lemma onSubmitTableForm_drops_empty_class_witness :
  class sampleData = Some ""
  ∧ onSubmitTableForm (sampleEditor false false None) (Some plainTable)
      (mkDialogApi sampleData)
    = onSubmitTableForm (sampleEditor false false None) (Some plainTable)
        (mkDialogApi (deleteClass sampleData)).
Proof.
  split; [reflexivity|].
  apply (onSubmitTableForm_drops_empty_class
           (sampleEditor false false None) (Some plainTable)
           (mkDialogApi sampleData)).
  reflexivity.
Defined.

(** C6, as the code has it.  On submit the handler looks for the first
    [caption] in document order among all descendants of the table, its
    caption children and the captions of nested tables alike.  If there is
    one and the form's caption is not "checked", that element is removed;
    if there is none and the form's caption is "checked", a new [caption]
    element with a non-empty placeholder becomes the table's first child;
    in every other case the tree of the table is left as it was. *)
Theorem onSubmitTableForm_caption
    (editor : Editor) (tableElm : option Element) (api : DialogApi) :
  let elm := tableWorkedOn editor tableElm (getData api) in
  let elm' := table (onSubmitTableForm editor tableElm api) in
  (∀ q, q ∈ Dom.select "caption" elm ↔
        q ≠ [] ∧ ∃ x, nodeAt q elm = Some x
                      ∧ Dom.upper (tagName x) = "CAPTION")
  ∧ (∀ i x, childList elm !! i = Some x → tagName x = "CAPTION" →
            [i] ∈ Dom.select "caption" elm)
  ∧ (∀ c q, head (Dom.select "caption" elm) = Some c →
            q ∈ Dom.select "caption" elm → q = c ∨ docBefore c q)
  ∧ match head (Dom.select "caption" elm) with
    | Some c =>
        if bool_decide (caption (getData api) = Some "checked")
        then elm' = elm
        else elm' = Dom.remove c elm
    | None =>
        if bool_decide (caption (getData api) = Some "checked")
        then ∃ cap placeholder,
               elm' = mkElement (tagName elm) (attribs elm) (innerHTML elm)
                        (Some (cap :: childList elm))
               ∧ tagName cap = "CAPTION"
               ∧ innerHTML cap = Some placeholder
               ∧ placeholder ≠ ""
        else elm' = elm
    end.
Proof.
  intros elm elm'. split; [|split; [|split]].
  - intros q. rewrite elem_of_select. unfold Dom.matchesTag.
    by setoid_rewrite bool_decide_eq_true.
  - intros i x Hi Hx. apply elem_of_select. split; [done|]. exists x.
    simpl. rewrite Hi. split; [done|]. unfold Dom.matchesTag.
    by rewrite Hx.
  - intros c q. apply select_head_first.
  - subst elm'. rewrite onSubmitTableForm_table. fold elm.
    unfold toggleCaption.
    destruct (head (Dom.select "caption" elm)) as [c|];
      destruct (bool_decide (caption (getData api) = Some "checked")); simpl;
      try done.
    exists (withPlaceholder editor (Dom.create "caption")),
      (captionPlaceholder editor).
    split; [by destruct elm|]. split; [done|]. split; [done|].
    unfold captionPlaceholder. by destruct (ie editor).
Qed.

(** C6, as stated, fails on a table without a caption of its own whose
    cell holds a table with one: with the form's caption "checked", no
    caption is inserted. *)
Lemma onSubmitTableForm_nested_caption_blocks_insert :
  (∀ c, c ∈ childList innerCaptionTable → tagName c ≠ "CAPTION")
  ∧ caption sampleData = Some "checked"
  ∧ Dom.select "caption" innerCaptionTable = [[0; 0; 0; 0; 0]]
  ∧ table (onSubmitTableForm (sampleEditor false false None)
             (Some innerCaptionTable) (mkDialogApi sampleData))
    = innerCaptionTable.
Proof.
  split; [|by vm_compute].
  intros c Hc. apply list_elem_of_singleton in Hc. by subst c.
Qed.

(** The two scenarios of the caption toggle: a caption is put first in a
    table that has none, and the caption of a table is taken out. *)
Example onSubmitTableForm_inserts_caption :
  nodeAt [0]
    (table (onSubmitTableForm (sampleEditor false false None)
              (Some plainTable) (mkDialogApi sampleData)))
  = Some (mkElement "CAPTION" ∅ (Some bogusBr)
            (Some [mkElement "BR" {["data-mce-bogus" := "1"]} None
                     (Some [])])).
Proof. reflexivity. Qed.

Example onSubmitTableForm_removes_caption :
  table (onSubmitTableForm (sampleEditor false false None)
           (Some captionTable) (mkDialogApi settingsData))
  = elem "TABLE" [elem "TBODY" [elem "TR" [elem "TD" []]]].
Proof. reflexivity. Qed.

(** A submit does not look at the selection. *)
Lemma styleCells_withSelection sel editor data i cs :
  styleCells (withSelection sel editor) data i cs
  = styleCells editor data i cs.
Proof.
  revert i. induction cs as [|c cs IH]; intros i; simpl; [done|].
  by rewrite IH.
Qed.

Lemma applyDataToElement_withSelection sel editor tableElm data :
  applyDataToElement (withSelection sel editor) tableElm data
  = applyDataToElement editor tableElm data.
Proof.
  unfold applyDataToElement, cellStyleCalls. simpl.
  destruct (children tableElm); by rewrite ?styleCells_withSelection.
Qed.

Lemma onSubmitTableForm_withSelection sel editor tableElm api :
  onSubmitTableForm (withSelection sel editor) tableElm api
  = onSubmitTableForm editor tableElm api.
Proof.
  unfold onSubmitTableForm.
  destruct tableElm; simpl; by rewrite applyDataToElement_withSelection.
Qed.

(** ** [open] *)

Lemma open_onSubmit f editor isNew :
  isNew ≠ Some false →
  onSubmit (open f editor isNew) = onSubmitTableForm editor None.
Proof.
  intros HisNew. unfold open.
  by rewrite (bool_decide_eq_false_2 (isNew = Some false)).
Qed.

(** C7, as the code has it.  When [isNew] is not strictly [false], the
    initial form data are the settings-derived defaults with [cols] and
    [rows] set to "1", for [isNew] unset as well as for [true]; with the
    advanced tab the three advanced fields are blank, without it they are
    as the settings give them; the class is the default one, without the
    marker class when a class list is configured. *)
Theorem open_new_initialData
    (f : string → string) (editor : Editor) (isNew : option bool) :
  isNew ≠ Some false →
  let defaults :=
    extractDataFromSettings editor (hasAdvancedTableTab editor) in
  let data := initialData (open f editor isNew) in
  cols data = Some "1" ∧ rows data = Some "1"
  ∧ (if hasAdvancedTableTab editor
     then borderstyle data = Some "" ∧ bordercolor data = Some ""
          ∧ backgroundcolor data = Some ""
     else borderstyle data = borderstyle defaults
          ∧ bordercolor data = bordercolor defaults
          ∧ backgroundcolor data = backgroundcolor defaults)
  ∧ width data = width defaults ∧ height data = height defaults
  ∧ cellspacing data = cellspacing defaults
  ∧ cellpadding data = cellpadding defaults
  ∧ border data = border defaults ∧ caption data = caption defaults
  ∧ align data = align defaults
  ∧ class data
    = (if bool_decide (0 < length (getTableClassList editor))
          && Js.truthy (class defaults)
       then f <$> class defaults else class defaults).
Proof.
  intros HisNew defaults data. subst data. unfold open.
  rewrite (bool_decide_eq_false_2 (isNew = Some false)) by done.
  fold defaults. simpl.
  destruct (bool_decide (0 < length (getTableClassList editor)));
    destruct (hasAdvancedTableTab editor); simpl;
    destruct (class defaults) as [c|] eqn:Hclass; simpl;
    try destruct (Js.truthy_string c); simpl; by rewrite ?Hclass.
Qed.

Lemma open_new_initialData_witness :
  cols (initialData
          (open id (sampleEditor true true (Some plainTable)) (Some true)))
  = Some "1".
Proof.
  apply (open_new_initialData id (sampleEditor true true (Some plainTable))
           (Some true)).
  discriminate.
Defined.

(** C7, as stated, fails for an unset [isNew]: the settings give no
    [cols] and no [rows], and the initial form data have "1" for both. *)
Lemma open_unset_isNew_sets_cols_rows :
  cols (extractDataFromSettings (sampleEditor false false None) false) = None
  ∧ rows (extractDataFromSettings (sampleEditor false false None) false)
    = None
  ∧ cols (initialData (open id (sampleEditor false false None) None))
    = Some "1"
  ∧ rows (initialData (open id (sampleEditor false false None) None))
    = Some "1".
Proof. repeat split. Qed.

(** C9.  When [isNew] is not strictly [false], the submit handler handed
    to the dialog is bound to no table element, whatever the selection:
    every submit calls the insertion collaborator, right after closing the
    dialog, and goes on with the table it returns. *)
Theorem open_new_always_inserts
    (f : string → string) (editor : Editor) (isNew : option bool)
    (api : DialogApi) :
  isNew ≠ Some false →
  let out := onSubmit (open f editor isNew) api in
  let cols := Js.or_else (cols (getData api)) "1" in
  let rows := Js.or_else (rows (getData api)) "1" in
  out = onSubmitTableForm editor None api
  ∧ (∃ rest, calls out = ApiClose :: InsertTableInsert cols rows :: rest)
  ∧ (∀ p m, DomSetAttribs p m ∈ calls out ↔
            p = [] ∧
            m = appliedAttrs editor (insertTable editor cols rows)
                  (if bool_decide (class (getData api) = Some "")
                   then deleteClass (getData api) else getData api))
  ∧ table out
    = toggleCaption editor (insertTable editor cols rows) (getData api)
  ∧ (∀ sel, onSubmit (open f (withSelection sel editor) isNew) api = out).
Proof.
  intros HisNew out cols rows. subst out.
  rewrite open_onSubmit by done. split; [done|]. split; [|split; [|split]].
  - rewrite onSubmitTableForm_calls. simpl. eauto.
  - intros p m. apply onSubmitTableForm_setAttribs.
  - apply onSubmitTableForm_table.
  - intros sel. rewrite open_onSubmit by done.
    apply onSubmitTableForm_withSelection.
Qed.

Lemma open_new_always_inserts_witness :
  selectedTable (sampleEditor false false (Some captionTable))
  = Some captionTable
  ∧ onSubmit (open id (sampleEditor false false (Some captionTable))
                (Some true)) (mkDialogApi sampleData)
    = onSubmitTableForm (sampleEditor false false (Some captionTable)) None
        (mkDialogApi sampleData).
Proof.
  split; [reflexivity|].
  apply (open_new_always_inserts id
           (sampleEditor false false (Some captionTable)) (Some true)
           (mkDialogApi sampleData)).
  discriminate.
Defined.

(** * Further properties *)

(** ** [styleTDTH] *)

(** A cell lies at or below a cell of the first layer. *)
Lemma cellAt_below_first_layer root q :
  cellAt root q → ∃ q', q' `prefix_of` q ∧ firstLayerCell root q'.
Proof.
  revert root. induction q as [|k q IH]; intros root Hcell.
  - exists []. split; [done|]. apply firstLayerCell_nil.
    by destruct Hcell as (c & [= <-] & ?).
  - destruct (isTDTH root) eqn:Hroot.
    + exists []. split; [apply prefix_nil|by apply firstLayerCell_nil].
    + destruct (childList root !! k) as [c|] eqn:Hk.
      * apply (cellAt_cons root k q c Hk) in Hcell.
        destruct (IH c Hcell) as (q' & Hpre & Hq').
        exists (k :: q'). split; [by apply prefix_cons|].
        apply firstLayerCell_cons. split; [done|]. by exists c.
      * destruct Hcell as (x & Hx & _). simpl in Hx. by rewrite Hk in Hx.
Qed.

(** X1.  Every cell of the tree is at or below exactly one of the nodes
    that [styleTDTH] styles: no cell is left out of reach of the call, and
    no two styled nodes lie on one branch. *)
Theorem styleTDTH_covers_every_cell
    (root : Element) (name : StyleArg) (value : option StyleArg) (q : path) :
  cellAt root q →
  ∃ q', q' `prefix_of` q
        ∧ DomSetStyle q' name value ∈ styleTDTH [] root name value
        ∧ ∀ q'', q'' `prefix_of` q →
                 DomSetStyle q'' name value ∈ styleTDTH [] root name value →
                 q'' = q'.
Proof.
  intros (q' & Hpre & Hq')%cellAt_below_first_layer. exists q'.
  split; [done|]. split; [apply elem_of_styleTDTH; by exists q'|].
  intros q'' Hpre' (r & [= ->] & Hr)%elem_of_styleTDTH. simpl.
  destruct (prefix_weak_total _ _ _ Hpre Hpre') as [H|H].
  - destruct (decide (q' = r)) as [|Hne]; [done|].
    destruct Hr as [_ Hr]. destruct (Hr q' H Hne). apply Hq'.
  - destruct (decide (r = q')) as [|Hne]; [done|].
    destruct Hq' as [_ Hq']. destruct (Hq' r H Hne). apply Hr.
Qed.

Lemma styleTDTH_covers_every_cell_witness :
  ∃ q', q' `prefix_of` [0; 0; 0; 0; 0; 0; 0]
        ∧ DomSetStyle q' (StyleName "padding") None
          ∈ styleTDTH [] nestedTable (StyleName "padding") None
        ∧ ∀ q'', q'' `prefix_of` [0; 0; 0; 0; 0; 0; 0] →
                 DomSetStyle q'' (StyleName "padding") None
                 ∈ styleTDTH [] nestedTable (StyleName "padding") None →
                 q'' = q'.
Proof.
  apply (styleTDTH_covers_every_cell nestedTable (StyleName "padding") None
           [0; 0; 0; 0; 0; 0; 0]).
  by eexists.
Defined.

(** X2.  [styleTDTH] makes no call at all exactly when the tree holds no
    cell. *)
Theorem styleTDTH_silent_iff_no_cell
    (p : path) (root : Element) (name : StyleArg) (value : option StyleArg) :
  styleTDTH p root name value = [] ↔ ∀ q, ¬ cellAt root q.
Proof.
  split.
  - intros Hnil q (q' & _ & Hq')%cellAt_below_first_layer.
    assert (DomSetStyle (p ++ q') name value ∈ styleTDTH p root name value)
      as Hin by (apply elem_of_styleTDTH; by exists q').
    rewrite Hnil in Hin. by apply elem_of_nil in Hin.
  - intros Hnone. apply elem_of_nil_inv.
    intros x (q & _ & [Hq _])%elem_of_styleTDTH. by apply (Hnone q).
Qed.

Lemma setStyleTargets_styleTDTH p root name value r :
  r ∈ setStyleTargets (styleTDTH p root name value) →
  ∃ q, r = p ++ q.
Proof.
  unfold setStyleTargets.
  intros (x & (q & -> & _)%elem_of_styleTDTH & [= <-])%list_elem_of_omap.
  by exists q.
Qed.

Lemma setStyleTargets_styleChildren_sorted p i cs name value :
  Forall (λ c, ∀ p', StronglySorted docBefore
                       (setStyleTargets (styleTDTH p' c name value))) cs →
  StronglySorted docBefore (setStyleTargets (styleChildren p i cs name value)).
Proof.
  intros Hcs. revert i. induction Hcs as [|c cs Hc _ IH]; intros i; simpl.
  - constructor.
  - unfold setStyleTargets in *. rewrite omap_app.
    apply StronglySorted_app. split; [|split; [apply Hc|apply IH]].
    intros r1 r2 (q1 & ->)%setStyleTargets_styleTDTH
      (x & (k & c' & _ & (q2 & -> & _)%elem_of_styleTDTH)%elem_of_styleChildren
       & [= <-])%list_elem_of_omap.
    rewrite <- !app_assoc. apply docBefore_app. simpl. left. lia.
Qed.

(** X3.  [styleTDTH] styles the cells in document order. *)
Theorem styleTDTH_in_document_order
    (p : path) (root : Element) (name : StyleArg) (value : option StyleArg) :
  StronglySorted docBefore (setStyleTargets (styleTDTH p root name value)).
Proof.
  revert p. induction root as [t a h|t a h cs IH] using Element_ind;
    intros p; rewrite styleTDTH_unfold; destruct (isTDTH _); simpl;
    try (by repeat constructor).
  by apply setStyleTargets_styleChildren_sorted.
Qed.

(** ** [applyDataToElement] *)

Lemma truthy_string_true s : s ≠ "" → Js.truthy_string s = true.
Proof. intros Hs. unfold Js.truthy_string. by rewrite bool_decide_eq_false_2. Qed.

(** X4.  The attributes and the styles that [applyDataToElement] writes on
    the table element: besides the keys of the host's defaults, the
    attribute map has [class] and [style] always, [width] only for an
    element with a width attribute under a host that does not style with
    CSS, and [border], [cellpadding] and [cellspacing] only under such a
    host; the style map has [height] always, [width] in the other case,
    [border-width] and [border-spacing] only with CSS styling, and the
    three advanced styles only with the advanced tab.  No other key is
    ever written. *)
Theorem applyDataToElement_keys
    (editor : Editor) (tableElm : Element) (data : TableData) (k : string) :
  (k ∈ dom (appliedAttrs editor tableElm data) ↔
     k ∈ dom (getDefaultAttributes editor) ∨ k = "class" ∨ k = "style"
     ∨ (k = "width" ∧ Dom.getAttrib tableElm "width" ≠ ""
        ∧ shouldStyleWithCss editor = false)
     ∨ (shouldStyleWithCss editor = false
        ∧ (k = "border" ∨ k = "cellpadding" ∨ k = "cellspacing")))
  ∧ (k ∈ dom (appliedStyles editor tableElm data) ↔
       k ∈ dom (getDefaultStyles editor) ∨ k = "height"
       ∨ (k = "width" ∧ (Dom.getAttrib tableElm "width" = ""
                         ∨ shouldStyleWithCss editor = true))
       ∨ (shouldStyleWithCss editor = true
          ∧ (k = "border-width" ∨ k = "border-spacing"))
       ∨ (hasAdvancedTableTab editor = true
          ∧ (k = "background-color" ∨ k = "border-color"
             ∨ k = "border-style"))).
Proof.
  unfold appliedAttrs, appliedStyles, Merger.merge, tableAttrs, tableStyles.
  rewrite !dom_union_L.
  destruct (decide (Dom.getAttrib tableElm "width" = "")) as [Hw|Hw].
  - rewrite Hw. simpl.
    destruct (shouldStyleWithCss editor), (hasAdvancedTableTab editor);
      rewrite ?dom_insert_L, ?dom_empty_L; set_unfold; intuition congruence.
  - rewrite (truthy_string_true _ Hw). simpl.
    destruct (shouldStyleWithCss editor), (hasAdvancedTableTab editor);
      simpl; rewrite ?dom_insert_L, ?dom_empty_L; set_unfold;
      intuition congruence.
Qed.

(** X5.  What the form's fields become on the table element, whatever the
    host's defaults are: the height is always a style, with the length
    unit put behind a bare number; with the advanced tab the three
    advanced fields are styles taken as they are; with CSS styling border
    and cell spacing are the styles [border-width] and [border-spacing]
    with the length unit, and without it border, cell padding and cell
    spacing are attributes taken as they are. *)
Theorem applyDataToElement_values
    (editor : Editor) (tableElm : Element) (data : TableData) :
  appliedStyles editor tableElm data !! "height"
    = Some (Util.addSizeSuffix (height data))
  ∧ (if hasAdvancedTableTab editor then
       appliedStyles editor tableElm data !! "background-color"
         = Some (backgroundcolor data)
       ∧ appliedStyles editor tableElm data !! "border-color"
         = Some (bordercolor data)
       ∧ appliedStyles editor tableElm data !! "border-style"
         = Some (borderstyle data)
     else
       ∀ k, k ∈ ["background-color"; "border-color"; "border-style"] →
            appliedStyles editor tableElm data !! k
            = getDefaultStyles editor !! k)
  ∧ (if shouldStyleWithCss editor then
       appliedStyles editor tableElm data !! "border-width"
         = Some (Util.addSizeSuffix (border data))
       ∧ appliedStyles editor tableElm data !! "border-spacing"
         = Some (Util.addSizeSuffix (cellspacing data))
     else
       appliedAttrs editor tableElm data !! "border" = Some (border data)
       ∧ appliedAttrs editor tableElm data !! "cellpadding"
         = Some (cellpadding data)
       ∧ appliedAttrs editor tableElm data !! "cellspacing"
         = Some (cellspacing data)).
Proof.
  unfold appliedAttrs, appliedStyles, tableAttrs, tableStyles.
  destruct (Js.truthy_string _ && negb _) eqn:Hw;
    destruct (shouldStyleWithCss editor), (hasAdvancedTableTab editor);
    simpl in Hw; try discriminate;
    repeat split;
    try (intros k Hk; apply merge_lookup_old;
         repeat (apply elem_of_cons in Hk as [->|Hk]; [by simplify_map_eq|]);
         by apply elem_of_nil in Hk);
    apply merge_lookup_nu; by simplify_map_eq.
Qed.

Lemma appliedStyles_border_width editor tableElm data :
  shouldStyleWithCss editor = true →
  appliedStyles editor tableElm data !! "border-width"
  = Some (Util.addSizeSuffix (border data)).
Proof.
  intros Hcss. apply merge_lookup_nu. unfold tableStyles.
  rewrite Hcss, andb_false_r.
  destruct (hasAdvancedTableTab editor); by simplify_map_eq.
Qed.

Lemma appliedStyles_border_color editor tableElm data :
  hasAdvancedTableTab editor = true →
  appliedStyles editor tableElm data !! "border-color"
  = Some (bordercolor data).
Proof.
  intros Hadv. apply merge_lookup_nu. unfold tableStyles.
  rewrite Hadv. by simplify_map_eq.
Qed.

(** X6.  A cell never gets a border width or a border colour that differs
    from the table's: every map that [applyDataToElement] hands to
    [dom.setStyle] holds, under [border-width] and under [border-color],
    what the table's own style map holds under that key, if it holds
    anything there. *)
Theorem applyDataToElement_cells_match_table
    (editor : Editor) (tableElm : Element) (data : TableData)
    (p : path) (name : StyleArg) (value : option StyleArg) :
  DomSetStyle p name value ∈ applyDataToElement editor tableElm data →
  ∃ m, name = StyleMap m
       ∧ ∀ k v, k ∈ ["border-width"; "border-color"] → m !! k = Some v →
                appliedStyles editor tableElm data !! k = Some v.
Proof.
  unfold applyDataToElement. rewrite elem_of_app, list_elem_of_singleton.
  intros [(Hcss & i & c & q & _ & _ & Hx)%elem_of_cellStyleCalls|[=]].
  pose proof (appliedStyles_border_width editor tableElm data Hcss) as Hbw.
  destruct Hx as [[= _ -> _]|[Hadv [= _ -> _]]]; eexists; (split; [done|]);
    intros k v Hk Hm; unfold cellBorderStyles, cellColorStyles in Hm;
    repeat (apply elem_of_cons in Hk as [->|Hk]; [|]);
    try (by apply elem_of_nil in Hk); simplify_map_eq; try done.
  by apply appliedStyles_border_color.
Qed.

Lemma applyDataToElement_cells_match_table_witness :
  ∃ m, StyleMap (cellBorderStyles sampleData) = StyleMap m
       ∧ ∀ k v, k ∈ ["border-width"; "border-color"] → m !! k = Some v →
                appliedStyles (sampleEditor false true None) plainTable
                  sampleData !! k = Some v.
Proof.
  apply (applyDataToElement_cells_match_table (sampleEditor false true None)
           plainTable sampleData [0; 0; 0]
           (StyleMap (cellBorderStyles sampleData)) None).
  apply elem_of_app. left. apply list_elem_of_here.
Defined.

Lemma tableStyles_setCellpadding editor tableElm data v :
  tableStyles editor tableElm (setCellpadding v data)
  = tableStyles editor tableElm data.
Proof. done. Qed.

Lemma cellStyleCalls_no_cells editor tableElm data :
  (∀ i c q, childList tableElm !! i = Some c → ¬ cellAt c q) →
  cellStyleCalls editor tableElm data = [].
Proof.
  intros Hnone. apply elem_of_nil_inv.
  intros x (_ & i & c & q & Hi & [Hq _] & _)%elem_of_cellStyleCalls.
  by apply (Hnone i c q).
Qed.

(** X7.  Under a host that styles with CSS the form's cell padding only
    reaches the cells: the attribute map applied to the table element,
    its serialized style included, is the same whatever the cell padding
    is, and for a table without a cell below it the cell padding has no
    effect at all. *)
Theorem applyDataToElement_css_padding_is_for_cells
    (editor : Editor) (tableElm : Element) (data : TableData) (v : jsval) :
  shouldStyleWithCss editor = true →
  appliedAttrs editor tableElm (setCellpadding v data)
    = appliedAttrs editor tableElm data
  ∧ ((∀ i c q, childList tableElm !! i = Some c → ¬ cellAt c q) →
     applyDataToElement editor tableElm (setCellpadding v data)
     = applyDataToElement editor tableElm data).
Proof.
  intros Hcss.
  assert (appliedAttrs editor tableElm (setCellpadding v data)
          = appliedAttrs editor tableElm data) as Heq.
  { unfold appliedAttrs, tableAttrs, appliedStyles.
    by rewrite tableStyles_setCellpadding, Hcss. }
  split; [done|]. intros Hnone. unfold applyDataToElement.
  by rewrite Heq, !cellStyleCalls_no_cells.
Qed.

Lemma applyDataToElement_css_padding_is_for_cells_witness :
  appliedAttrs (sampleEditor false true None) plainTable
    (setCellpadding (Some "9") sampleData)
  = appliedAttrs (sampleEditor false true None) plainTable sampleData.
Proof.
  apply (applyDataToElement_css_padding_is_for_cells
           (sampleEditor false true None) plainTable sampleData (Some "9")).
  reflexivity.
Defined.

Lemma cellStyles_differ data : cellBorderStyles data ≠ cellColorStyles data.
Proof.
  intros Heq. assert (cellBorderStyles data !! "padding"
                      = cellColorStyles data !! "padding") as H
    by (by rewrite Heq).
  unfold cellBorderStyles, cellColorStyles in H. by simplify_map_eq.
Qed.

Lemma styleCells_NoDup editor data i cs :
  NoDup (styleCells editor data i cs).
Proof.
  revert i. induction cs as [|c cs IH]; intros i; simpl; [constructor|].
  apply NoDup_app. split; [apply styleTDTH_NoDup|]. split.
  - intros x (q & -> & _)%elem_of_styleTDTH [Hx|Hx]%elem_of_app.
    + destruct (hasAdvancedTableTab editor); [|by apply elem_of_nil in Hx].
      apply elem_of_styleTDTH in Hx as (q' & Heq & _).
      apply (cellStyles_differ data). congruence.
    + apply elem_of_styleCells in Hx as (k & c' & _ & [Hx|[_ Hx]]);
        apply elem_of_styleTDTH in Hx as (q' & [=] & _); lia.
  - apply NoDup_app. split; [|split; [|apply IH]].
    + destruct (hasAdvancedTableTab editor);
        [apply styleTDTH_NoDup|constructor].
    + intros x Hx.
      destruct (hasAdvancedTableTab editor); [|by apply elem_of_nil in Hx].
      apply elem_of_styleTDTH in Hx as (q & -> & _).
      intros (k & c' & _ & [Hx|[_ Hx]])%elem_of_styleCells;
        apply elem_of_styleTDTH in Hx as (q' & [=] & _); lia.
Qed.

(** X8.  [applyDataToElement] makes no call twice: a cell receives each of
    the two style maps at most once, and the table element its attribute
    map once, after every cell has been styled. *)
Theorem applyDataToElement_calls_once
    (editor : Editor) (tableElm : Element) (data : TableData) :
  NoDup (applyDataToElement editor tableElm data)
  ∧ last (applyDataToElement editor tableElm data)
    = Some (DomSetAttribs [] (appliedAttrs editor tableElm data))
  ∧ ∀ p name value,
      DomSetStyle p name value ∈ applyDataToElement editor tableElm data →
      p ≠ [].
Proof.
  unfold applyDataToElement. split; [|split].
  - apply NoDup_app. split; [|split; [|apply NoDup_singleton]].
    + unfold cellStyleCalls.
      destruct (shouldStyleWithCss editor); [|constructor].
      destruct (children tableElm); [apply styleCells_NoDup|constructor].
    + intros x (p & n & v & ->)%cellStyleCalls_are_setStyle.
      by intros [=]%list_elem_of_singleton.
  - apply last_snoc.
  - intros p name value. rewrite elem_of_app, list_elem_of_singleton.
    intros [(_ & i & c & q & _ & _ & Hx)%elem_of_cellStyleCalls|[=]].
    by destruct Hx as [[= -> _ _]|[_ [= -> _ _]]].
Qed.

(** ** [onSubmitTableForm] *)

(** X9.  The order of a submit: the dialog is closed before anything
    else; a table is inserted, if at all, before any write to the DOM;
    the cells are styled before the table element gets its attributes,
    which it gets once; then comes the one alignment call, then the focus,
    and the refresh of the visual aids is the last call. *)
Theorem onSubmitTableForm_call_order
    (editor : Editor) (tableElm : option Element) (api : DialogApi) :
  ∃ inserted styled m aligned,
    calls (onSubmitTableForm editor tableElm api)
    = [ApiClose] ++ inserted ++ styled
      ++ [DomSetAttribs [] m; aligned; EditorFocus; EditorAddVisual]
    ∧ (inserted = [] ∨ ∃ c r, inserted = [InsertTableInsert c r])
    ∧ Forall (λ x, ∃ p n v, x = DomSetStyle p n v ∧ p ≠ []) styled
    ∧ (aligned = StylesUnApplyAlign ∨ ∃ a, aligned = StylesApplyAlign a).
Proof.
  rewrite onSubmitTableForm_calls. unfold applyDataToElement.
  exists (match tableElm with
          | None =>
              [InsertTableInsert (Js.or_else (cols (getData api)) "1")
                 (Js.or_else (rows (getData api)) "1")]
          | Some _ => []
          end),
    (cellStyleCalls editor (tableWorkedOn editor tableElm (getData api))
       (if bool_decide (class (getData api) = Some "")
        then deleteClass (getData api) else getData api)),
    (appliedAttrs editor (tableWorkedOn editor tableElm (getData api))
       (if bool_decide (class (getData api) = Some "")
        then deleteClass (getData api) else getData api)),
    (if bool_decide (align (getData api) = Some "")
     then StylesUnApplyAlign else StylesApplyAlign (align (getData api))).
  split; [|split; [|split]].
  - do 2 f_equal. rewrite <- app_assoc. f_equal.
    by destruct (bool_decide (align _ = _)).
  - destruct tableElm; eauto.
  - apply Forall_forall.
    intros x (_ & i & c & q & _ & _ & [->|[_ ->]])%elem_of_cellStyleCalls;
      by eexists _, _, _.
  - destruct (bool_decide (align _ = _)); eauto.
Qed.

Lemma or_else_nonempty v d : d ≠ "" → Js.or_else v d ≠ "".
Proof.
  intros Hd. unfold Js.or_else, Js.truthy_string.
  destruct v as [s|]; [|done]. by case_bool_decide.
Qed.

Lemma elem_of_onSubmitTableForm_calls editor tableElm api x :
  x ∈ calls (onSubmitTableForm editor tableElm api) ↔
  x = ApiClose
  ∨ (tableElm = None
     ∧ x = InsertTableInsert (Js.or_else (cols (getData api)) "1")
             (Js.or_else (rows (getData api)) "1"))
  ∨ x ∈ applyDataToElement editor
          (tableWorkedOn editor tableElm (getData api))
          (if bool_decide (class (getData api) = Some "")
           then deleteClass (getData api) else getData api)
  ∨ x = (if bool_decide (align (getData api) = Some "")
         then StylesUnApplyAlign else StylesApplyAlign (align (getData api)))
  ∨ x = EditorFocus ∨ x = EditorAddVisual.
Proof.
  rewrite onSubmitTableForm_calls, !elem_of_app, !elem_of_cons, elem_of_nil.
  destruct tableElm, (bool_decide (align _ = _));
    rewrite ?elem_of_cons, ?elem_of_nil; intuition congruence.
Qed.

Lemma applyDataToElement_writes_only editor tableElm data x :
  x ∈ applyDataToElement editor tableElm data →
  (∃ p n v, x = DomSetStyle p n v) ∨ (∃ p m, x = DomSetAttribs p m).
Proof.
  unfold applyDataToElement. rewrite elem_of_app, list_elem_of_singleton.
  intros [?%cellStyleCalls_are_setStyle| ->]; eauto.
Qed.

Lemma insertion_without_element editor tableElm api c r :
  InsertTableInsert c r ∈ calls (onSubmitTableForm editor tableElm api) →
  tableElm = None.
Proof.
  intros [[=]|[[? _]|[Hin|[Heq|[[=]|[=]]]]]]%elem_of_onSubmitTableForm_calls;
    [done| |].
  - by apply applyDataToElement_writes_only
      in Hin as [(? & ? & ? & [=])|(? & ? & [=])].
  - by destruct (bool_decide (align _ = _)).
Qed.

(** X10.  The insertion collaborator is called exactly when the handler is
    bound to no table element, and it never receives an empty count: each
    of the two counts is the form's value, passed on as it is, when that
    is a non-empty string, and "1" when the field is absent or empty. *)
Theorem onSubmitTableForm_insertion
    (editor : Editor) (tableElm : option Element) (api : DialogApi)
    (c r : string) :
  InsertTableInsert c r ∈ calls (onSubmitTableForm editor tableElm api) ↔
  tableElm = None ∧ c ≠ "" ∧ r ≠ ""
  ∧ (cols (getData api) = Some c
     ∨ (c = "1" ∧ Js.truthy (cols (getData api)) = false))
  ∧ (rows (getData api) = Some r
     ∨ (r = "1" ∧ Js.truthy (rows (getData api)) = false)).
Proof.
  assert (∀ v s, s = Js.or_else v "1" ↔
                 s ≠ "" ∧ (v = Some s ∨ (s = "1" ∧ Js.truthy v = false)))
    as Hor.
  { intros v s. unfold Js.or_else, Js.truthy, Js.truthy_string.
    destruct v as [s'|]; [case_bool_decide|]; simpl;
      intuition (subst; try congruence; try discriminate; auto). }
  rewrite elem_of_onSubmitTableForm_calls. split.
  - intros [[=]|[(-> & Heq)|[Hin|[Heq|[[=]|[=]]]]]].
    + injection Heq as Hc Hr.
      apply Hor in Hc as [? ?]. apply Hor in Hr as [? ?]. done.
    + by apply applyDataToElement_writes_only
        in Hin as [(? & ? & ? & [=])|(? & ? & [=])].
    + by destruct (bool_decide (align _ = _)).
  - intros (-> & Hc & Hr & Hcols & Hrows). right; left. split; [done|].
    f_equal; by apply Hor.
Qed.

(** X11.  The alignment of a submit: the alignment is taken off exactly
    when the form's alignment is the empty string; in every other case,
    an absent alignment included, the alignment collaborator is called
    with the form's value as it is. *)
Theorem onSubmitTableForm_alignment
    (editor : Editor) (tableElm : option Element) (api : DialogApi) :
  (StylesUnApplyAlign ∈ calls (onSubmitTableForm editor tableElm api)
   ↔ align (getData api) = Some "")
  ∧ (∀ a, StylesApplyAlign a ∈ calls (onSubmitTableForm editor tableElm api)
          ↔ a = align (getData api) ∧ align (getData api) ≠ Some "").
Proof.
  split; [|intros a]; rewrite elem_of_onSubmitTableForm_calls;
    (split;
     [ intros [[=]|[(_ & [=])|[Hin|[Heq|[[=]|[=]]]]]];
       [ by apply applyDataToElement_writes_only
           in Hin as [(? & ? & ? & [=])|(? & ? & [=])]
       | case_bool_decide; by simplify_eq ]
     | intros H; do 3 right; left; case_bool_decide;
       intuition congruence ]).
Qed.

(** X12.  On every submit the attribute map applied to the table element
    holds the form's class as it is, except that the empty string becomes
    [undefined]: whatever the form holds, the empty string is never
    written as class. *)
Theorem onSubmitTableForm_class
    (editor : Editor) (tableElm : option Element) (api : DialogApi) :
  ∃ m,
    (∀ p m', DomSetAttribs p m'
             ∈ calls (onSubmitTableForm editor tableElm api)
             ↔ p = [] ∧ m' = m)
    ∧ m !! "class"
      = Some (if bool_decide (class (getData api) = Some "")
              then None else class (getData api))
    ∧ m !! "class" ≠ Some (Some "").
Proof.
  eexists. split; [intros p m'; apply onSubmitTableForm_setAttribs|].
  assert (∀ t d, appliedAttrs editor t d !! "class" = Some (class d)) as ->.
  { intros t d. apply merge_lookup_nu, tableAttrs_class. }
  case_bool_decide; simpl; [done|]. split; [done|]. congruence.
Qed.

Lemma select_insertFirst selector newChild parent :
  Dom.matchesTag selector newChild = true →
  head (Dom.select selector (Dom.insertFirst newChild parent)) = Some [0].
Proof.
  intros Hm. destruct parent as [t a h ch].
  unfold Dom.select, Dom.descendants, Dom.insertFirst.
  rewrite nodes_unfold. simpl tail. simpl children. cbn [Dom.nodesChildren].
  rewrite (nodes_unfold _ newChild). simpl app.
  by rewrite filter_cons_True.
Qed.

Lemma toggleCaption_checked_has_caption editor tableElm data :
  caption data = Some "checked" →
  ∃ c, head (Dom.select "caption" (toggleCaption editor tableElm data))
       = Some c.
Proof.
  intros Hcap. unfold toggleCaption. rewrite Hcap. simpl.
  destruct (head (Dom.select "caption" tableElm)) as [c|] eqn:Hsel; [eauto|].
  exists [0]. by apply select_insertFirst.
Qed.

(** X13.  With the form's caption "checked", the table has a caption
    after the submit, and a second submit of the same form on the
    resulting table leaves its tree as it is: no second caption is
    added. *)
Theorem onSubmitTableForm_caption_checked_once
    (editor : Editor) (tableElm : option Element) (api : DialogApi) :
  caption (getData api) = Some "checked" →
  let elm' := table (onSubmitTableForm editor tableElm api) in
  Dom.select "caption" elm' ≠ []
  ∧ table (onSubmitTableForm editor (Some elm') api) = elm'.
Proof.
  intros Hcap elm'. subst elm'. rewrite !onSubmitTableForm_table.
  simpl tableWorkedOn.
  destruct (toggleCaption_checked_has_caption editor
              (tableWorkedOn editor tableElm (getData api)) (getData api)
              Hcap) as [c Hc].
  split.
  - intros Hnil. by rewrite Hnil in Hc.
  - unfold toggleCaption at 1. by rewrite Hc, Hcap.
Qed.

Lemma onSubmitTableForm_caption_checked_once_witness :
  Dom.select "caption"
    (table (onSubmitTableForm (sampleEditor false false None)
              (Some plainTable) (mkDialogApi sampleData))) ≠ []
  ∧ table (onSubmitTableForm (sampleEditor false false None)
             (Some (table (onSubmitTableForm (sampleEditor false false None)
                             (Some plainTable) (mkDialogApi sampleData))))
             (mkDialogApi sampleData))
    = table (onSubmitTableForm (sampleEditor false false None)
               (Some plainTable) (mkDialogApi sampleData)).
Proof.
  apply (onSubmitTableForm_caption_checked_once
           (sampleEditor false false None) (Some plainTable)
           (mkDialogApi sampleData)).
  reflexivity.
Defined.

(** ** [open] *)

(** X14.  Opened to edit ([isNew] strictly [false]), the dialog shows the
    data of the selected table, or the settings-derived defaults when no
    table is selected: [cols] and [rows] are left as they come, the other
    plain fields as well; the three advanced fields are blanked only when
    no table is selected and the advanced tab is enabled; the class loses
    the marker class only when a class list is configured and the class
    is not empty. *)
Theorem open_edit_initialData (f : string → string) (editor : Editor) :
  let source :=
    match selectedTable editor with
    | Some elm =>
        extractDataFromTableElement editor elm (hasAdvancedTableTab editor)
    | None => extractDataFromSettings editor (hasAdvancedTableTab editor)
    end in
  let data := initialData (open f editor (Some false)) in
  cols data = cols source ∧ rows data = rows source
  ∧ width data = width source ∧ height data = height source
  ∧ cellspacing data = cellspacing source
  ∧ cellpadding data = cellpadding source
  ∧ border data = border source ∧ caption data = caption source
  ∧ align data = align source
  ∧ (if bool_decide (selectedTable editor = None)
        && hasAdvancedTableTab editor
     then borderstyle data = Some "" ∧ bordercolor data = Some ""
          ∧ backgroundcolor data = Some ""
     else borderstyle data = borderstyle source
          ∧ bordercolor data = bordercolor source
          ∧ backgroundcolor data = backgroundcolor source)
  ∧ class data
    = (if bool_decide (0 < length (getTableClassList editor))
          && Js.truthy (class source)
       then f <$> class source else class source).
Proof.
  intros source data. subst source data. unfold open. simpl.
  destruct (selectedTable editor) as [elm|]; simpl;
    destruct (bool_decide (0 < length (getTableClassList editor)));
    destruct (hasAdvancedTableTab editor); simpl;
    match goal with
    | |- context [class ?d] =>
        destruct (class d) as [c|] eqn:Hclass; simpl;
        try destruct (Js.truthy_string c); simpl; by rewrite ?Hclass
    end.
Qed.

(** X15.  Which submits insert a table: the handler that [open] hands to
    the dialog is bound to the selected table exactly when [isNew] is
    strictly [false]; so a submit calls the insertion collaborator exactly
    when [isNew] is not strictly [false] or no table is selected, and a
    submit on a selected table under [isNew = false] works on that table
    and inserts nothing. *)
Theorem open_submit_inserts_iff
    (f : string → string) (editor : Editor) (isNew : option bool)
    (api : DialogApi) :
  let out := onSubmit (open f editor isNew) api in
  out = onSubmitTableForm editor
          (if bool_decide (isNew = Some false) then selectedTable editor
           else None) api
  ∧ ((∃ c r, InsertTableInsert c r ∈ calls out)
     ↔ isNew ≠ Some false ∨ selectedTable editor = None)
  ∧ (∀ elm, isNew = Some false → selectedTable editor = Some elm →
            table out = toggleCaption editor elm (getData api)
            ∧ ∀ p m, DomSetAttribs p m ∈ calls out ↔
                     p = [] ∧
                     m = appliedAttrs editor elm
                           (if bool_decide (class (getData api) = Some "")
                            then deleteClass (getData api)
                            else getData api)).
Proof.
  intros out.
  assert (out = onSubmitTableForm editor
                  (if bool_decide (isNew = Some false)
                   then selectedTable editor else None) api) as Hout.
  { subst out. unfold open. case_bool_decide; [|done].
    by destruct (selectedTable editor). }
  split; [done|]. rewrite Hout. split.
  - split.
    + intros (c & r & Hnone%insertion_without_element).
      case_bool_decide; [by right|by left].
    + intros Hor. eexists _, _. apply elem_of_onSubmitTableForm_calls.
      right; left. split; [|done].
      case_bool_decide; [|done]. by destruct Hor.
  - intros elm HisNew Hsel. rewrite bool_decide_eq_true_2, Hsel by done.
    split; [apply onSubmitTableForm_table|].
    intros p m. apply onSubmitTableForm_setAttribs.
Qed.

(** A closed, decidable goal is settled by evaluation. *)
Ltac decide_closed := apply (bool_decide_unpack _); vm_compute; exact I.

(** One goal for each element of the closed list that [H] ranges over. *)
Ltac by_cases H :=
  repeat (apply elem_of_cons in H as [->|H]; [|]);
  [..|by apply elem_of_nil in H].

(** A field is in a closed list of names exactly when a settled flag
    holds. *)
Ltac flag_iff :=
  split;
  [ intros Hin;
    first [ assumption | reflexivity | exfalso; revert Hin; decide_closed ]
  | intros Hflag;
    first [ decide_closed | contradiction | discriminate ] ].

Lemma open_general_panel f editor isNew :
  generalPanel (body (open f editor isNew)) =
  [Grid 2
     ((if negb (bool_decide (isNew = Some true)) then []
       else [Input "cols" "Cols"; Input "rows" "Rows"])
      ++ [Input "width" "Width"; Input "height" "Height"]
      ++ (if hasAppearanceOptions editor then
            [Input "cellspacing" "Cell spacing";
             Input "cellpadding" "Cell padding";
             Input "border" "Border width";
             Label "Caption" [Checkbox "caption" "Show caption"]]
          else [])
      ++ [SelectBox "align" "Alignment"
            [mkListItem "None" ""; mkListItem "Left" "left";
             mkListItem "Center" "center"; mkListItem "Right" "right"]]
      ++ (if bool_decide (0 < length (getTableClassList editor)) then
            [SelectBox "class" "Class"
               (buildListItems editor (getTableClassList editor))]
          else []))].
Proof.
  unfold open. case_bool_decide; [|by destruct (hasAdvancedTableTab editor)].
  by destruct (selectedTable editor), (hasAdvancedTableTab editor).
Qed.

(** X16.  The fields of the general part of the dialog: the row and
    column counts are asked for exactly when [isNew] is strictly [true],
    the class exactly when a class list is configured, the four appearance
    fields exactly when the appearance options are on, and width, height
    and alignment always.  No field occurs twice, and every field is one
    of the form data. *)
Theorem open_general_fields
    (f : string → string) (editor : Editor) (isNew : option bool) :
  let names :=
    concat (fieldNames <$> generalPanel (body (open f editor isNew))) in
  NoDup names
  ∧ (∀ n, n ∈ names → n ∈ tableDataFields)
  ∧ (∀ n, n ∈ ["cols"; "rows"] → n ∈ names ↔ isNew = Some true)
  ∧ ("class" ∈ names ↔ 0 < length (getTableClassList editor))
  ∧ (∀ n, n ∈ ["cellspacing"; "cellpadding"; "border"; "caption"] →
          n ∈ names ↔ hasAppearanceOptions editor = true)
  ∧ (∀ n, n ∈ ["width"; "height"; "align"] → n ∈ names)
  ∧ (∀ n, n ∈ ["borderstyle"; "bordercolor"; "backgroundcolor"] →
          n ∉ names).
Proof.
  intros names. subst names. rewrite open_general_panel.
  destruct (decide (isNew = Some true)) as [H1|H1];
    [rewrite (bool_decide_eq_true_2 _ H1)
    |rewrite (bool_decide_eq_false_2 _ H1)];
    (destruct (decide (0 < length (getTableClassList editor))) as [H2|H2];
     [rewrite (bool_decide_eq_true_2 _ H2)
     |rewrite (bool_decide_eq_false_2 _ H2)]);
    destruct (hasAppearanceOptions editor); simpl;
    (split; [decide_closed|]);
    (split; [intros n Hn; by_cases Hn; decide_closed|]);
    (split; [intros n Hn; by_cases Hn; flag_iff|]);
    (split; [flag_iff|]);
    (split; [intros n Hn; by_cases Hn; flag_iff|]);
    (split; intros n Hn; by_cases Hn; decide_closed).
Qed.


(** X18.  An omitted [isNew] opens the dialog of an insertion, not that of
    an edit: the initial data and the submit handler are those of
    [isNew = true], whatever the selection, and the general fields are
    the same but for the row and column counts, which are not asked
    for. *)
Theorem open_unset_isNew_is_insertion
    (f : string → string) (editor : Editor) :
  initialData (open f editor None) = initialData (open f editor (Some true))
  ∧ onSubmit (open f editor None) = onSubmit (open f editor (Some true))
  ∧ onSubmit (open f editor None) = onSubmitTableForm editor None
  ∧ concat (fieldNames <$> generalPanel (body (open f editor (Some true))))
    = ["cols"; "rows"]
      ++ concat (fieldNames <$> generalPanel (body (open f editor None))).
Proof.
  split; [done|]. split; [done|]. split; [done|].
  by rewrite !open_general_panel.
Qed.
